(** * SeleniumWebdriver helper: locator resolution, smart wait and [within] scoping

    A shallow embedding of [lib/helper/SeleniumWebdriver.js] and
    [lib/helper/errors/ElementNotFound.js].

    The helper is JavaScript over a remote browser session.  The embedding
    keeps three things the code depends on:

    - a synchronous call either returns or throws ([Completion]), while an
      asynchronous one hands back a promise that is later fulfilled or
      rejected ([Promise]); [_smartWait] and [_withinBegin] treat the two
      differently;
    - the helper's mutable state ([this.context], the two rebindable
      [browser.find*] properties, the module-level [withinStore], the
      session's implicit-wait timeout) is threaded explicitly;
    - every command sent to the driver is appended, together with the
      driver's answer, to a trace, so that "which queries were issued, in
      which order" is a property of the final state. *)

From stdpp Require Import gmap strings list fin_maps.
From Stdlib Require Import ZArith.

Open Scope string_scope.

(** ** JavaScript outcomes *)

Module Js.

(** Error objects.  [DriverError] stands for the errors selenium-webdriver
    raises; they carry a [name] (read by [waitUntilExists]) and a [type]
    (read by [_failed]); an absent property is the empty string, which is
    falsy like [undefined]. *)
Inductive JsError : Type :=
| TypeError (message : string)
| Error (message : string)
| AssertionFailedError (message : string)
| DriverError (name type message : string).

Definition err_type (e : JsError) : string :=
  match e with DriverError _ t _ => t | _ => "" end.

Definition err_message (e : JsError) : string :=
  match e with
  | TypeError m | Error m | AssertionFailedError m | DriverError _ _ m => m
  end.

(** Outcome of a synchronous call. *)
Inductive Completion (A : Type) : Type :=
| Normal (a : A)
| Throw (e : JsError).

(** A promise, identified with the way it eventually settles. *)
Inductive Promise (A : Type) : Type :=
| Resolved (a : A)
| Rejected (e : JsError).

Arguments Normal {A} a.
Arguments Throw {A} e.
Arguments Resolved {A} a.
Arguments Rejected {A} e.

(** [await p] inside an async function. *)
Definition settle {A} (p : Promise A) : Completion A :=
  match p with Resolved a => Normal a | Rejected e => Throw e end.

(** The promise an async function returns for a body that completed. *)
Definition promise_of {A} (c : Completion A) : Promise A :=
  match c with Normal a => Resolved a | Throw e => Rejected e end.

(** [Promise.all]: the values in order, or the first rejection. *)
Fixpoint Promise_all {A} (ps : list (Promise A)) : Promise (list A) :=
  match ps with
  | [] => Resolved []
  | Rejected e :: _ => Rejected e
  | Resolved a :: rest =>
      match Promise_all rest with
      | Resolved l => Resolved (a :: l)
      | Rejected e => Rejected e
      end
  end.

(** Truthiness of a string value. *)
Definition truthy (s : string) : bool := negb (String.eqb s "").

(** [s.indexOf(pat) > -1] *)
Definition includes (pat s : string) : bool :=
  match String.index 0 pat s with Some _ => true | None => false end.

End Js.
Export Js.

(** ** Locators *)

(** A raw locator as test authors write it: a plain string or a single-key
    descriptor such as [{name: "password"}]. *)
Inductive RawLocator : Type :=
| LString (s : string)
| LObject (key value : string).

Module Locator.

(** Modelled from the spec: the [Locator] class of [lib/locator.js], which
    is required by the helper but is not among the sources.  Section 3
    gives its fields, section 4.1 its classification rules. *)
Record t : Type := mk {
  type : option string;
  value : string;
  fuzzy : bool
}.

(** Modelled from the spec: the CSS prefixes [#] and [.] of section 4.1. *)
Definition isCSS (s : string) : bool :=
  String.prefix "#" s || String.prefix "." s.

(** Modelled from the spec: the XPath prefixes [//] and [(] of section 4.1. *)
Definition isXPath (s : string) : bool :=
  String.prefix "//" s || String.prefix "(" s.

(** Modelled from the spec: the constructor [new Locator(raw)] (4.1). *)
Definition new (raw : RawLocator) : t :=
  match raw with
  | LObject k v => mk (Some k) v false
  | LString s =>
      if isCSS s then mk (Some "css") s false
      else if isXPath s then mk (Some "xpath") s false
      else mk None s true
  end.

(** Modelled from the spec: [isFuzzy()] reads the [fuzzy] flag (section 3). *)
Definition isFuzzy (l : t) : bool := fuzzy l.

End Locator.

(** ** The driver *)

(** A WebElement handle. *)
Definition Element : Type := nat.

(** Where a search starts: the whole document or a WebElement. *)
Inductive Root : Type :=
| Document
| Within (context : Element).

(** A [By] object, as produced by [global.by.css(x)], [global.by.xpath(x)]
    or [global.by[type](value)]: the strategy's name and its operand. *)
Record By : Type := mkBy {
  strategy : string;
  operand : RawLocator
}.

(** What the helper passes to [findElement(s)]: a [By], or the [false] that
    [guessLocator] returns when it has nothing to offer. *)
Inductive JsQuery : Type :=
| QFalse
| QBy (b : By).

(** The value of the [browser.findElement] / [browser.findElements]
    properties and of the slots saved in [withinStore].  A function value is
    identified by the root it searches: [Fn Document] is the driver's own
    method, [Fn (Within c)] the closure [(l) => context.findElement(l)]
    installed by [_withinBegin]. *)
Inductive JsVal : Type :=
| Undefined
| Fn (root : Root).

(** One exchange with the driver: the command and the driver's answer. *)
Inductive Event : Type :=
| EvImplicitlyWait (ms : Z)
| EvFindElement (root : Root) (q : JsQuery) (res : Completion (Promise Element))
| EvFindElements (root : Root) (q : JsQuery)
                 (res : Completion (Promise (list Element)))
| EvIsSelected (el : Element) (res : Completion (Promise bool))
| EvClear (el : Element) (res : Completion (Promise unit))
| EvSendKeys (el : Element) (keys : string) (res : Completion (Promise unit))
| EvClick (el : Element) (res : Completion (Promise unit))
| EvSaveScreenshot (fileName : string) (res : Promise unit).

Definition is_query (ev : Event) : bool :=
  match ev with
  | EvFindElement _ _ _ | EvFindElements _ _ _ => true
  | _ => false
  end.

(** The element queries of a trace, in order. *)
Definition queries (tr : list Event) : list Event := List.filter is_query tr.

(** A setting of the implicit-wait timeout. *)
Definition is_timeout (ev : Event) : bool :=
  match ev with
  | EvImplicitlyWait _ => true
  | _ => false
  end.

(** The browser session, seen from the helper.  Every command receives the
    implicit-wait timeout in force and the page, and answers with a new page
    and either a synchronous exception or a promise. *)
Record Driver (Page : Type) : Type := mkDriver {
  d_findElement :
    Z -> Root -> JsQuery -> Page -> Page * Completion (Promise Element);
  d_findElements :
    Z -> Root -> JsQuery -> Page -> Page * Completion (Promise (list Element));
  d_isSelected : Element -> Page -> Page * Completion (Promise bool);
  d_clear : Element -> Page -> Page * Completion (Promise unit);
  d_sendKeys : Element -> string -> Page -> Page * Completion (Promise unit);
  d_click : Element -> Page -> Page * Completion (Promise unit);
  d_screenshot : string -> Page -> Page * Promise unit
}.

Arguments d_findElement {Page} _ _ _ _ _.
Arguments d_findElements {Page} _ _ _ _ _.
Arguments d_isSelected {Page} _ _ _.
Arguments d_clear {Page} _ _ _.
Arguments d_sendKeys {Page} _ _ _ _.
Arguments d_click {Page} _ _ _.
Arguments d_screenshot {Page} _ _ _.

(** ** Collaborators that are required but not among the sources *)

(** The pieces of [lib/locator.js], [lib/utils.js] and selenium-webdriver's
    [By] namespace that the helper calls.  The XPath builders and the
    literal quoting are kept abstract: the helper only passes their results
    on to the driver. *)
Record Collaborators : Type := mkCollaborators {
  (** members of [global.by] besides [css] and [xpath], which the helper
      calls by name *)
  by_extra : string -> bool;
  xpathLocator_literal : RawLocator -> string;
  field_labelEquals : string -> string;
  field_labelContains : string -> string;
  field_byName : string -> string;
  checkable_byText : string -> string;
  checkable_byName : string -> string;
  clickable_narrow : string -> string;
  clickable_wide : string -> string;
  Locator_toString : Locator.t -> string;
  clearString : string -> string
}.

(** ** Helper state *)

Record State (Page : Type) : Type := mkState {
  options_smartWait : Z;
  options_rootElement : RawLocator;
  options_disableScreenshots : bool;
  options_uniqueScreenshotNames : bool;
  isRunning : bool;
  context : RawLocator;
  browser_findElement : JsVal;
  browser_findElements : JsVal;
  (** the module-level [let withinStore = {}] *)
  withinStore : gmap string JsVal;
  (** the session's implicit-wait timeout *)
  implicitWait : Z;
  page : Page;
  trace : list Event
}.

Arguments mkState {Page}.
Arguments options_smartWait {Page} _.
Arguments options_rootElement {Page} _.
Arguments options_disableScreenshots {Page} _.
Arguments options_uniqueScreenshotNames {Page} _.
Arguments isRunning {Page} _.
Arguments context {Page} _.
Arguments browser_findElement {Page} _.
Arguments browser_findElements {Page} _.
Arguments withinStore {Page} _.
Arguments implicitWait {Page} _.
Arguments page {Page} _.
Arguments trace {Page} _.

(** The [test] object handed to [_failed]; [ctx_test] is [test.ctx.test],
    absent when [test.ctx] or [test.ctx.test] is. *)
Record CtxTest : Type := mkCtxTest {
  ct_type : string;
  ct_title : string;
  ct_uuid : option string
}.

Record Test : Type := mkTest {
  title : string;
  uuid : option string;
  ctx_test : option CtxTest
}.

Inductive AssertType : Type := assert | negate.

(** ** Sequencing *)

Module Eff.
Section WithState.
Context {S : Type}.

(** Synchronous code over the state [S]: it returns or throws. *)
Definition M (A : Type) : Type := S -> S * Completion A.

(** A call of an [async function]: it never throws, it returns a
    promise. *)
Definition Async (A : Type) : Type := S -> S * Promise A.

Definition ret {A} (a : A) : M A := fun s => (s, Normal a).
Definition throw {A} (e : JsError) : M A := fun s => (s, Throw e).

Definition bind {A B} (m : M A) (k : A -> M B) : M B :=
  fun s =>
    match m s with
    | (s', Normal a) => k a s'
    | (s', Throw e) => (s', Throw e)
    end.

Definition lift {A} (c : Completion A) : M A := fun s => (s, c).
Definition gets {A} (f : S -> A) : M A := fun s => (s, Normal (f s)).
Definition modify (f : S -> S) : M unit := fun s => (f s, Normal tt).

(** [await p] *)
Definition await {A} (p : Promise A) : M A := lift (settle p).

(** [async function (...) { body }] *)
Definition async {A} (body : M A) : Async A :=
  fun s => let '(s', c) := body s in (s', promise_of c).

(** Calling an async function hands back its promise. *)
Definition call {A} (f : Async A) : M (Promise A) :=
  fun s => let '(s', p) := f s in (s', Normal p).

(** [await f(...)] *)
Definition await_call {A} (f : Async A) : M A :=
  bind (call f) await.
End WithState.

Arguments M : clear implicits.
Arguments Async : clear implicits.
End Eff.
Export Eff.

Notation "'let*' x := m 'in' k" := (bind m (fun x => k))
  (at level 10, x name, m at level 100, k at level 200).
Notation "'do*' m 'in' k" := (bind m (fun _ => k))
  (at level 10, m at level 100, k at level 200).

(** ** The helper *)

(** [this.browser], or a WebElement used as the matcher. *)
Inductive Client : Type :=
| Browser
| Elem (el : Element).

Section Helper.
Context {Page : Type}.
Variable collab : Collaborators.
Variable drv : Driver Page.

Abbreviation St := (State Page).

(** *** Field updates *)

Definition set_isRunning (b : bool) (s : St) : St :=
  mkState (options_smartWait s) (options_rootElement s)
    (options_disableScreenshots s) (options_uniqueScreenshotNames s)
    b (context s) (browser_findElement s) (browser_findElements s)
    (withinStore s) (implicitWait s) (page s) (trace s).

Definition set_context (c : RawLocator) (s : St) : St :=
  mkState (options_smartWait s) (options_rootElement s)
    (options_disableScreenshots s) (options_uniqueScreenshotNames s)
    (isRunning s) c (browser_findElement s) (browser_findElements s)
    (withinStore s) (implicitWait s) (page s) (trace s).

Definition set_findElement (v : JsVal) (s : St) : St :=
  mkState (options_smartWait s) (options_rootElement s)
    (options_disableScreenshots s) (options_uniqueScreenshotNames s)
    (isRunning s) (context s) v (browser_findElements s)
    (withinStore s) (implicitWait s) (page s) (trace s).

Definition set_findElements (v : JsVal) (s : St) : St :=
  mkState (options_smartWait s) (options_rootElement s)
    (options_disableScreenshots s) (options_uniqueScreenshotNames s)
    (isRunning s) (context s) (browser_findElement s) v
    (withinStore s) (implicitWait s) (page s) (trace s).

Definition set_withinStore (m : gmap string JsVal) (s : St) : St :=
  mkState (options_smartWait s) (options_rootElement s)
    (options_disableScreenshots s) (options_uniqueScreenshotNames s)
    (isRunning s) (context s) (browser_findElement s) (browser_findElements s)
    m (implicitWait s) (page s) (trace s).

(** A driver command went through: new page, one more event. *)
Definition record (pg : Page) (ev : Event) (s : St) : St :=
  mkState (options_smartWait s) (options_rootElement s)
    (options_disableScreenshots s) (options_uniqueScreenshotNames s)
    (isRunning s) (context s) (browser_findElement s) (browser_findElements s)
    (withinStore s) (implicitWait s) pg (trace s ++ [ev]).

(** *** Driver commands *)

(** [this.browser.manage().timeouts().implicitlyWait(ms)] *)
Definition implicitlyWait (ms : Z) : M St unit :=
  fun s =>
    (mkState (options_smartWait s) (options_rootElement s)
       (options_disableScreenshots s) (options_uniqueScreenshotNames s)
       (isRunning s) (context s) (browser_findElement s)
       (browser_findElements s) (withinStore s) ms (page s)
       (trace s ++ [EvImplicitlyWait ms]),
     Normal tt).

Definition issue_findElement (r : Root) (q : JsQuery) : M St (Promise Element) :=
  fun s =>
    let '(pg, res) := d_findElement drv (implicitWait s) r q (page s) in
    (record pg (EvFindElement r q res) s, res).

Definition issue_findElements (r : Root) (q : JsQuery)
  : M St (Promise (list Element)) :=
  fun s =>
    let '(pg, res) := d_findElements drv (implicitWait s) r q (page s) in
    (record pg (EvFindElements r q res) s, res).

(** [el.isSelected()] *)
Definition isSelected (el : Element) : M St (Promise bool) :=
  fun s =>
    let '(pg, res) := d_isSelected drv el (page s) in
    (record pg (EvIsSelected el res) s, res).

(** [el.clear()] *)
Definition clear (el : Element) : M St (Promise unit) :=
  fun s =>
    let '(pg, res) := d_clear drv el (page s) in
    (record pg (EvClear el res) s, res).

(** [el.sendKeys(value)] *)
Definition sendKeys (el : Element) (keys : string) : M St (Promise unit) :=
  fun s =>
    let '(pg, res) := d_sendKeys drv el keys (page s) in
    (record pg (EvSendKeys el keys res) s, res).

(** [el.click()] *)
Definition el_click (el : Element) : M St (Promise unit) :=
  fun s =>
    let '(pg, res) := d_click drv el (page s) in
    (record pg (EvClick el res) s, res).

(** Calling the value of a [browser.find*] property. *)
Definition apply_find {A} (prop : string) (v : JsVal)
    (native : Root -> M St (Promise A)) : M St (Promise A) :=
  match v with
  | Fn r => native r
  | Undefined => throw (TypeError (prop ++ " is not a function"))
  end.

(** [client.findElement(q)] *)
Definition findElement (client : Client) (q : JsQuery) : M St (Promise Element) :=
  match client with
  | Elem el => issue_findElement (Within el) q
  | Browser =>
      let* f := gets browser_findElement in
      apply_find "this.browser.findElement" f (fun r => issue_findElement r q)
  end.

(** [client.findElements(q)] *)
Definition findElements (client : Client) (q : JsQuery)
  : M St (Promise (list Element)) :=
  match client with
  | Elem el => issue_findElements (Within el) q
  | Browser =>
      let* f := gets browser_findElements in
      apply_find "this.browser.findElements" f
        (fun r => issue_findElements r q)
  end.

(** *** [global.by] *)

Definition by_css (x : RawLocator) : By := mkBy "css" x.
Definition by_xpath (x : string) : By := mkBy "xpath" (LString x).

Definition by_has (t : string) : bool :=
  String.eqb t "css" || String.eqb t "xpath" || by_extra collab t.

(** [global.by[type](value)] *)
Definition by_member (t v : string) : Completion By :=
  if by_has t then Normal (mkBy t (LString v))
  else Throw (TypeError "global.by[l.type] is not a function").

(** *** Locator guessing and the not-found error *)

Definition guessLocator (locator : RawLocator) : Completion (option By) :=
  let l := Locator.new locator in
  if Locator.isFuzzy l then Normal None
  else
    match Locator.type l with
    | Some t =>
        if truthy t then
          match by_member t (Locator.value l) with
          | Normal b => Normal (Some b)
          | Throw e => Throw e
          end
        else Normal None
    | None => Normal None
    end.

(** [guessLocator(locator)] passed on as it is *)
Definition guessed (locator : RawLocator) : Completion JsQuery :=
  match guessLocator locator with
  | Normal (Some b) => Normal (QBy b)
  | Normal None => Normal QFalse
  | Throw e => Throw e
  end.

(** [guessLocator(locator) || global.by.css(locator)] *)
Definition guessed_or_css (locator : RawLocator) : Completion JsQuery :=
  match guessLocator locator with
  | Normal (Some b) => Normal (QBy b)
  | Normal None => Normal (QBy (by_css locator))
  | Throw e => Throw e
  end.

(** The error thrown by [new ElementNotFound(locator, prefix, postfix)]. *)
Definition ElementNotFound (locator : RawLocator)
    (prefixMessage postfixMessage : option string) : JsError :=
  Error (default "Element" prefixMessage ++ " "
         ++ Locator_toString collab (Locator.new locator) ++ " "
         ++ default "was not found by text|CSS|XPath" postfixMessage).

Definition assertElementExists (res : list Element) (locator : RawLocator)
    (prefix suffix : option string) : M St unit :=
  match res with
  | [] => throw (ElementNotFound locator prefix suffix)
  | _ :: _ => ret tt
  end.

(** [els[0].prop]: reading a property of [undefined] throws. *)
Definition first_of (els : list Element) (prop : string) : M St Element :=
  match els with
  | el :: _ => ret el
  | [] => throw (TypeError
                   ("Cannot read property '" ++ prop ++ "' of undefined"))
  end.

(** *** SmartWait

    [fn] is called synchronously: the commands it issues are queued at
    once and it hands back a promise, or it throws.  The call to
    [debugSection] only prints and is left out. *)
Definition _smartWait {R} (fn : M St (Promise R)) (enabled : bool)
  : Async St R :=
  async (
    let* smartWait := gets options_smartWait in
    if (smartWait =? 0)%Z || negb enabled then
      let* res := fn in await res
    else
      do* implicitlyWait smartWait in
      let* res := fn in
      do* implicitlyWait 0 in
      await res).

Definition _locate (locator : RawLocator) (smartWait : bool)
  : Async St (list Element) :=
  async (
    let* res := call (_smartWait
                        (let* q := lift (guessed locator) in
                         findElements Browser q)
                        smartWait) in
    await res).

(** *** Strategy chains *)

Definition findCheckable (client : Client) (locator : RawLocator)
  : Async St (list Element) :=
  async (
    let* matchedLocator := lift (guessLocator locator) in
    match matchedLocator with
    | Some b => let* res := findElements client (QBy b) in await res
    | None =>
        let literal := xpathLocator_literal collab locator in
        let* p := findElements client
                    (QBy (by_xpath (checkable_byText collab literal))) in
        let* els := await p in
        match els with
        | _ :: _ => ret els
        | [] =>
            let* p := findElements client
                        (QBy (by_xpath (checkable_byName collab literal))) in
            let* els := await p in
            match els with
            | _ :: _ => ret els
            | [] =>
                let* p := findElements client (QBy (by_css locator)) in
                await p
            end
        end
    end).

Definition findFields (client : Client) (locator : RawLocator)
  : Async St (list Element) :=
  async (
    let* matchedLocator := lift (guessLocator locator) in
    match matchedLocator with
    | Some b => let* res := findElements client (QBy b) in await res
    | None =>
        let literal := xpathLocator_literal collab locator in
        let* p := findElements client
                    (QBy (by_xpath (field_labelEquals collab literal))) in
        let* els := await p in
        match els with
        | _ :: _ => ret els
        | [] =>
            let* p := findElements client
                        (QBy (by_xpath (field_labelContains collab literal))) in
            let* els := await p in
            match els with
            | _ :: _ => ret els
            | [] =>
                let* p := findElements client
                            (QBy (by_xpath (field_byName collab literal))) in
                let* els := await p in
                match els with
                | _ :: _ => ret els
                | [] =>
                    let* p := findElements client (QBy (by_css locator)) in
                    await p
                end
            end
        end
    end).

Definition findClickable (matcher : Client) (locator : RawLocator)
  : Async St Element :=
  async (
    let locator := Locator.new locator in
    if negb (Locator.isFuzzy locator) then
      await_call
        (_smartWait
           (let* q := lift (guessed (LString (Locator.value locator))) in
            findElement matcher q)
           true)
    else
      let literal :=
        xpathLocator_literal collab (LString (Locator.value locator)) in
      let narrowLocator := clickable_narrow collab literal in
      let* p := findElements matcher (QBy (by_xpath narrowLocator)) in
      let* els := await p in
      match els with
      | el :: _ => ret el
      | [] =>
          let* p := findElements matcher
                      (QBy (by_xpath (clickable_wide collab literal))) in
          let* els := await p in
          match els with
          | el :: _ => ret el
          | [] =>
              let* p := findElement matcher
                          (QBy (by_css (LString (Locator.value locator)))) in
              await p
          end
      end).

(** *** Actions built on the chains *)

(** [if (context)]: [null] and the empty string are falsy. *)
Definition given (context : option RawLocator) : option RawLocator :=
  match context with
  | Some (LString s) => if truthy s then context else None
  | _ => context
  end.

Definition click (locator : RawLocator) (context : option RawLocator)
  : Async St unit :=
  async (
    let* matcher :=
      match given context with
      | Some c =>
          let* el := await_call
                       (_smartWait
                          (let* q := lift (guessed_or_css c) in
                           findElement Browser q)
                          true) in
          ret (Elem el)
      | None => ret Browser
      end in
    let* el := await_call (findClickable matcher locator) in
    let* res := el_click el in
    await res).

Definition fillField (field : RawLocator) (value : string) : Async St unit :=
  async (
    let* els := await_call (findFields Browser field) in
    let* el := first_of els "clear" in
    let* p := clear el in
    do* await p in
    let* el := first_of els "sendKeys" in
    let* res := sendKeys el value in
    await res).

Definition appendField (field : RawLocator) (value : string)
  : Async St unit :=
  async (
    let* els := await_call (findFields Browser field) in
    do* assertElementExists els field (Some "Field") None in
    let* el := first_of els "sendKeys" in
    let* res := sendKeys el value in
    await res).

Definition clearField (field : RawLocator) : Async St unit :=
  async (
    let* els := await_call (findFields Browser field) in
    do* assertElementExists els field (Some "Field") None in
    let* el := first_of els "clear" in
    let* res := clear el in
    await res).

(** *** Checkbox state *)

(** [String(locator)], as a template literal renders it. *)
Definition js_String (locator : RawLocator) : string :=
  match locator with
  | LString s => s
  | LObject _ _ => "[object Object]"
  end.

(** Modelled from the spec: [truth(subject, type)] of [lib/assert/truth.js],
    which is required by the helper but is not among the sources.  Its
    [assert] passes on a true value and its [negate] on a false one
    (section 8, checkable OR-semantics); a failed assertion throws. *)
Definition truth (subject type : string) (assertType : AssertType)
    (value : bool) : Completion unit :=
  match assertType, value with
  | assert, true | negate, false => Normal tt
  | assert, false =>
      Throw (AssertionFailedError ("expected " ++ subject ++ " " ++ type))
  | negate, true =>
      Throw (AssertionFailedError ("expected " ++ subject ++ " not " ++ type))
  end.

(** [els.forEach((el) => elsSelected.push(el.isSelected()))] *)
Fixpoint isSelected_each (els : list Element) : M St (list (Promise bool)) :=
  match els with
  | [] => ret []
  | el :: rest =>
      let* p := isSelected el in
      let* ps := isSelected_each rest in
      ret (p :: ps)
  end.

(** [values.reduce((prev, cur) => prev || cur)], no initial value *)
Definition reduce_or (values : list bool) : Completion bool :=
  match values with
  | [] => Throw (TypeError "Reduce of empty array with no initial value")
  | v :: vs => Normal (fold_left orb vs v)
  end.

Definition proceedIsChecked (assertType : AssertType) (option : RawLocator)
  : Async St unit :=
  async (
    let* els := await_call (findCheckable Browser option) in
    do* assertElementExists els option (Some "Option") None in
    let* elsSelected := isSelected_each els in
    let* values := await (Promise_all elsSelected) in
    let* selected := lift (reduce_or values) in
    lift (truth ("checkable " ++ js_String option) "to be checked"
            assertType selected)).

Definition seeCheckboxIsChecked (field : RawLocator) : Async St unit :=
  async (await_call (proceedIsChecked assert field)).

Definition dontSeeCheckboxIsChecked (field : RawLocator) : Async St unit :=
  async (await_call (proceedIsChecked negate field)).

(** *** Scoping *)

Definition _withinBegin (locator : RawLocator) : M St (Promise Element) :=
  let* elFn := gets browser_findElement in
  do* modify (fun s => set_withinStore (<["elFn" := elFn]> (withinStore s)) s) in
  let* elsFn := gets browser_findElements in
  do* modify (fun s => set_withinStore (<["elsFn" := elsFn]> (withinStore s)) s) in
  do* modify (set_context locator) in
  let* q := lift (guessed_or_css locator) in
  let* p := findElement Browser q in
  match p with
  | Resolved context =>
      do* modify (set_findElement (Fn (Within context))) in
      do* modify (set_findElements (Fn (Within context))) in
      ret (Resolved context)
  | Rejected e => ret (Rejected e)
  end.

(** Reading a property of [withinStore]; a missing one is [undefined]. *)
Definition stored (key : string) (store : gmap string JsVal) : JsVal :=
  default Undefined (store !! key).

Definition _withinEnd : M St unit :=
  let* store := gets withinStore in
  do* modify (set_findElement (stored "elFn" store)) in
  let* store := gets withinStore in
  do* modify (set_findElements (stored "elsFn" store)) in
  do* modify (set_withinStore ∅) in
  let* rootElement := gets options_rootElement in
  modify (set_context rootElement).

(** *** Failure hook *)

(** [saveScreenshot(fileName, true)].  Its body (a script run in the page,
    a window resize, the capture and the file write) goes through the
    session only; it is one driver command here. *)
Definition saveScreenshot (fileName : string) : Async St unit :=
  fun s =>
    let '(pg, p) := d_screenshot drv fileName (page s) in
    (record pg (EvSaveScreenshot fileName p) s, p).

Definition failed_fileName (test : Test) : M St string :=
  let fileName := clearString collab (title test) in
  let fileName :=
    match ctx_test test with
    | Some ct =>
        if String.eqb (ct_type ct) "hook"
        then clearString collab (title test ++ "_" ++ ct_title ct)
        else fileName
    | None => fileName
    end in
  let* unique := gets options_uniqueScreenshotNames in
  if unique then
    let* uuid :=
      match uuid test with
      | Some u =>
          if truthy u then ret (Some u)
          else
            match ctx_test test with
            | Some ct => ret (ct_uuid ct)
            | None =>
                throw (TypeError "Cannot read property 'test' of undefined")
            end
      | None =>
          match ctx_test test with
          | Some ct => ret (ct_uuid ct)
          | None =>
              throw (TypeError "Cannot read property 'test' of undefined")
          end
      end in
    ret (String.substring 0 10 fileName ++ "_"
         ++ default "undefined" uuid ++ ".failed.png")
  else ret (fileName ++ ".failed.png").

(** The test of the [catch] handler in [_failed]. *)
Definition session_gone (err : JsError) : bool :=
  String.eqb (err_type err) "RuntimeError"
  && truthy (err_message err)
  && (includes "was terminated due to" (err_message err)
      || includes "no such window: target window already closed"
           (err_message err)).

Definition _failed (test : Test) : M St (Promise unit) :=
  let* store := gets withinStore in
  let* ended :=
    if negb (size store =? 0)%nat
    then (do* _withinEnd in ret [Resolved tt])
    else ret [] in
  let* disableScreenshots := gets options_disableScreenshots in
  let* shot :=
    if negb disableScreenshots then
      let* fileName := failed_fileName test in
      let* p := call (saveScreenshot fileName) in
      ret [p]
    else ret [] in
  match Promise_all (ended ++ shot) with
  | Resolved _ => ret (Resolved tt)
  | Rejected err =>
      do* (if session_gone err then modify (set_isRunning false) else ret tt) in
      ret (Resolved tt)
  end.

(** *** Start of a session *)

(** The state after [_init] and [_startBrowser]: the search root and the
    saved root element are both ['body'], the find properties are the
    driver's own, nothing is stored, no implicit wait is set. *)
Definition started (smartWait : Z)
    (disableScreenshots uniqueScreenshotNames : bool) (pg : Page) : St :=
  mkState smartWait (LString "body") disableScreenshots uniqueScreenshotNames
    true (LString "body") (Fn Document) (Fn Document) ∅ 0%Z pg [].

(** *** The chains in the words of the specification

    Section 4.2 describes a chain as an ordered list of queries run by a
    "first non-empty wins" rule: an empty answer means "try the next
    strategy", a non-empty answer is final, and the last strategy's answer
    is returned whatever it is. *)
Fixpoint first_nonempty (client : Client) (strategies : list JsQuery)
  : M St (list Element) :=
  match strategies with
  | [] => ret []
  | [q] => let* p := findElements client q in await p
  | q :: rest =>
      let* p := findElements client q in
      let* els := await p in
      match els with
      | _ :: _ => ret els
      | [] => first_nonempty client rest
      end
  end.

(** Field: label equals, label contains, name attribute, literal CSS. *)
Definition field_chain (locator : RawLocator) : list JsQuery :=
  let literal := xpathLocator_literal collab locator in
  [ QBy (by_xpath (field_labelEquals collab literal));
    QBy (by_xpath (field_labelContains collab literal));
    QBy (by_xpath (field_byName collab literal));
    QBy (by_css locator) ].

(** Checkable: label text, name attribute, literal CSS. *)
Definition checkable_chain (locator : RawLocator) : list JsQuery :=
  let literal := xpathLocator_literal collab locator in
  [ QBy (by_xpath (checkable_byText collab literal));
    QBy (by_xpath (checkable_byName collab literal));
    QBy (by_css locator) ].

(** Clickable: narrow XPath, wide XPath, literal CSS. *)
Definition clickable_chain (locator : RawLocator) : list JsQuery :=
  let value := Locator.value (Locator.new locator) in
  let literal := xpathLocator_literal collab (LString value) in
  [ QBy (by_xpath (clickable_narrow collab literal));
    QBy (by_xpath (clickable_wide collab literal));
    QBy (by_css (LString value)) ].

(** The root a client searches in a given state, when it can search. *)
Definition client_root (client : Client) (s : St) : option Root :=
  match client with
  | Elem el => Some (Within el)
  | Browser =>
      match browser_findElements s with
      | Fn r => Some r
      | Undefined => None
      end
  end.

(** The event of a query that matched nothing. *)
Definition no_match (r : Root) (q : JsQuery) : Event :=
  EvFindElements r q (Normal (Resolved [])).

(** What awaiting a driver answer gives. *)
Definition awaited {A} (res : Completion (Promise A)) : Completion A :=
  match res with
  | Normal p => settle p
  | Throw e => Throw e
  end.

(** *** States a test can reach *)

(** One call of a helper method by the test. *)
Inductive step : St -> St -> Prop :=
| step_withinBegin locator s : step s (fst (_withinBegin locator s))
| step_withinEnd s : step s (fst (_withinEnd s))
| step_failed test s : step s (fst (_failed test s))
| step_locate locator smartWait s : step s (fst (_locate locator smartWait s))
| step_click locator context s : step s (fst (click locator context s))
| step_fillField field value s : step s (fst (fillField field value s))
| step_appendField field value s : step s (fst (appendField field value s))
| step_clearField field s : step s (fst (clearField field s))
| step_seeCheckboxIsChecked field s :
    step s (fst (seeCheckboxIsChecked field s))
| step_dontSeeCheckboxIsChecked field s :
    step s (fst (dontSeeCheckboxIsChecked field s)).

Inductive reachable : St -> Prop :=
| reach_started smartWait disableScreenshots uniqueScreenshotNames pg :
    reachable (started smartWait disableScreenshots uniqueScreenshotNames pg)
| reach_step s s' : reachable s -> step s s' -> reachable s'.

(** The part of the state that scoping owns. *)
Definition same_scope (s s' : St) : Prop :=
  options_rootElement s' = options_rootElement s
  /\ context s' = context s
  /\ browser_findElement s' = browser_findElement s
  /\ browser_findElements s' = browser_findElements s
  /\ withinStore s' = withinStore s.

(** A computation that never touches the scoping state. *)
Definition keeps_scope {A} (m : M St A) : Prop :=
  forall s, same_scope s (fst (m s)).

Definition keeps_scope_async {A} (f : Async St A) : Prop :=
  forall s, same_scope s (fst (f s)).

(** What [_withinBegin] writes before it searches. *)
Definition entered (locator : RawLocator) (s : St) : St :=
  set_context locator
    (set_withinStore
       (<["elsFn" := browser_findElements s]>
          (<["elFn" := browser_findElement s]> (withinStore s)))
       s).

(** Outside a [within] block the search root is the root element. *)
Definition scope_inv (s : St) : Prop :=
  withinStore s = ∅ -> context s = options_rootElement s.

(** *** What the driver says about the matched elements *)

(** The driver, asked for the selected state of each element of [els] in
    turn, starting on the page [pg], answers with fulfilled promises whose
    values are [values], element by element, and leaves the page [pg']. *)
Fixpoint selected_states (els : list Element) (pg : Page)
    (values : list bool) (pg' : Page) : Prop :=
  match els, values with
  | [], [] => pg' = pg
  | el :: els, v :: values =>
      exists pg1,
        d_isSelected drv el pg = (pg1, Normal (Resolved v))
        /\ selected_states els pg1 values pg'
  | _, _ => False
  end.

(** The exchanges with the driver that these answers make. *)
Definition selected_events (els : list Element) (values : list bool)
  : list Event :=
  zip_with (fun el v => EvIsSelected el (Normal (Resolved v))) els values.
End Helper.

(** ** A small static page, for examples

    A page is a table from queries to the elements they match and a set of
    selected elements.  A query that matches nothing makes [findElement]
    reject with the driver's [NoSuchElementError]; [false] in place of a
    locator is refused at once. *)

Record SamplePage : Type := mkSamplePage {
  sp_match : Root -> JsQuery -> list Element;
  sp_selected : Element -> bool
}.

Definition no_such_element : JsError :=
  DriverError "NoSuchElementError" "" "no such element".

Definition sample_driver : Driver SamplePage :=
  {| d_findElement _ r q pg :=
       (pg,
        match q with
        | QFalse => Throw (TypeError "Invalid locator")
        | QBy _ =>
            Normal (match sp_match pg r q with
                    | el :: _ => Resolved el
                    | [] => Rejected no_such_element
                    end)
        end);
     d_findElements _ r q pg :=
       (pg,
        match q with
        | QFalse => Throw (TypeError "Invalid locator")
        | QBy _ => Normal (Resolved (sp_match pg r q))
        end);
     d_isSelected el pg := (pg, Normal (Resolved (sp_selected pg el)));
     d_clear _ pg := (pg, Normal (Resolved tt));
     d_sendKeys _ _ pg := (pg, Normal (Resolved tt));
     d_click _ pg := (pg, Normal (Resolved tt));
     d_screenshot _ pg := (pg, Resolved tt) |}.

(** Sample collaborators: the [By] namespace has selenium-webdriver's
    strategies; the builders tag the literal with the strategy's name. *)
Definition sample_collab : Collaborators :=
  {| by_extra t :=
       bool_decide (t ∈ ["className"; "id"; "js"; "linkText"; "name";
                          "partialLinkText"; "tagName"]);
     xpathLocator_literal l :=
       match l with LString x => "'" ++ x ++ "'" | LObject _ v => "'" ++ v ++ "'" end;
     field_labelEquals lit := "labelEquals:" ++ lit;
     field_labelContains lit := "labelContains:" ++ lit;
     field_byName lit := "fieldByName:" ++ lit;
     checkable_byText lit := "checkableByText:" ++ lit;
     checkable_byName lit := "checkableByName:" ++ lit;
     clickable_narrow lit := "narrow:" ++ lit;
     clickable_wide lit := "wide:" ++ lit;
     Locator_toString l := Locator.value l;
     clearString x := x |}.

(** Does a query use the given strategy with the given string operand? *)
Definition query_is (strategy_name x : string) (q : JsQuery) : bool :=
  match q with
  | QBy (mkBy u (LString y)) => String.eqb u strategy_name && String.eqb y x
  | _ => false
  end.

(** A page on which nothing matches. *)
Definition empty_page : SamplePage :=
  {| sp_match _ _ := []; sp_selected _ := false |}.

(** A login form: the label "Password" wraps input 7 (whose name is
    [pwd]); two checkboxes named [agree], 3 unchecked and 4 checked; two
    buttons 1 and 2 both captioned "Save"; the form itself is element 9. *)
Definition form_page : SamplePage :=
  {| sp_match _ q :=
       if query_is "xpath" "labelEquals:'Password'" q then [7]
       else if query_is "xpath" "fieldByName:'pwd'" q then [7]
       else if query_is "xpath" "checkableByName:'agree'" q then [3; 4]
       else if query_is "xpath" "narrow:'Save'" q then [1; 2]
       else if query_is "css" "#login" q then [9]
       else if query_is "name" "agree" q then [3; 4]
       else [];
     sp_selected el := Nat.eqb el 4 |}.

(** A fresh session on the login form, SmartWait configured to 5 seconds. *)
Definition form_session : State SamplePage :=
  started 5000 false false form_page.

(** A fresh session on a page where nothing matches, SmartWait off. *)
Definition empty_session : State SamplePage :=
  started 0 false false empty_page.

(** The query function [_locate] hands to [_smartWait]. *)
Definition locate_fn (locator : RawLocator)
  : M (State SamplePage) (Promise (list Element)) :=
  let* q := lift (guessed sample_collab locator) in
  findElements sample_driver Browser q.

(** A test that failed, as handed to [_failed]. *)
Definition failed_test : Test := mkTest "login works" None None.

(** The state after a scope entry whose element was not found. *)
Definition stuck_scope : State SamplePage :=
  fst (_withinBegin sample_collab sample_driver (LString "#nonexistent")
         form_session).

(** A sign-up form on which the caption "Terms" is on several elements of
    each kind: the labels of inputs 5 and 6 contain it, checkboxes 3 and 4
    have it as their text, and the wide clickable query finds links 1
    and 2. *)
Definition terms_page : SamplePage :=
  {| sp_match _ q :=
       if query_is "xpath" "labelContains:'Terms'" q then [5; 6]
       else if query_is "xpath" "checkableByText:'Terms'" q then [3; 4]
       else if query_is "xpath" "wide:'Terms'" q then [1; 2]
       else [];
     sp_selected _ := false |}.

Definition terms_session : State SamplePage :=
  started 0 false false terms_page.

(** * Further methods of the helper *)

(** The [option] argument of [selectOption]: one string or an array. *)
Inductive OptionArg : Type :=
| OneOption (opt : string)
| OptionList (opts : list string).

(** The double quote, as a one-character string. *)
Definition dquote : string := String (Ascii.ascii_of_nat 34) EmptyString.

Section MoreHelper.
Context {Page : Type}.
Variable collab : Collaborators.
Variable drv : Driver Page.

(** [String.prototype.trim], a built-in of the language. *)
Variable trim : string -> string.

Abbreviation St := (State Page).

(** *** Checking an option *)

Definition checkOption (field : RawLocator) (context : option RawLocator)
  : Async St unit :=
  async (
    let* matcher :=
      match given context with
      | Some c =>
          let* q := lift (guessed_or_css collab c) in
          let* p := findElement drv Browser q in
          let* el := await p in
          ret (Elem el)
      | None => ret Browser
      end in
    let* els := await_call (findCheckable collab drv matcher field) in
    do* assertElementExists collab els field (Some "Checkbox or radio") None in
    let* el := first_of els "isSelected" in
    let* p := isSelected drv el in
    let* selected := await p in
    if negb selected then
      let* el := first_of els "click" in
      let* res := el_click drv el in
      await res
    else ret tt).

(** *** Selecting options *)

(** [if (!Array.isArray(option)) option = [option]] *)
Definition option_array (option : OptionArg) : list string :=
  match option with
  | OneOption opt => [opt]
  | OptionList opts => opts
  end.

Definition byVisibleText (opt : string) : string :=
  let normalizedText :=
    "[normalize-space(.) = " ++ dquote ++ trim opt ++ dquote ++ "]" in
  "./option" ++ normalizedText ++ "|./optgroup/option" ++ normalizedText.

Definition byValue (opt : string) : string :=
  let normalizedValue :=
    "[normalize-space(@value) = " ++ dquote ++ trim opt ++ dquote ++ "]" in
  "./option" ++ normalizedValue ++ "|./optgroup/option" ++ normalizedValue.

(** [els.forEach((el) => promises.push(el.click()))] *)
Fixpoint click_each (els : list Element) : M St (list (Promise unit)) :=
  match els with
  | [] => ret []
  | el :: rest =>
      let* p := el_click drv el in
      let* ps := click_each rest in
      ret (p :: ps)
  end.

(** [field.findElements(q)], where [field] is [fields[0]] *)
Definition field_findElements (field : option Element) (q : JsQuery)
  : M St (Promise (list Element)) :=
  match field with
  | Some el => findElements drv (Elem el) q
  | None =>
      throw (TypeError "Cannot read property 'findElements' of undefined")
  end.

(** The body of [for (let key in option)], over the remaining options. *)
Fixpoint selectOption_loop (field : option Element) (options : list string)
    (promises : list (Promise unit)) : M St (list (Promise unit)) :=
  match options with
  | [] => ret promises
  | opt :: rest =>
      let* p := field_findElements field (QBy (by_xpath (byVisibleText opt))) in
      let* els := await p in
      let* els :=
        match els with
        | [] =>
            let* p := field_findElements field
                        (QBy (by_xpath (byValue opt))) in
            await p
        | _ :: _ => ret els
        end in
      let* clicks := click_each els in
      selectOption_loop field rest (promises ++ clicks)
  end.

Definition selectOption (select : RawLocator) (option : OptionArg)
  : Async St (list unit) :=
  async (
    let* fields := await_call (findFields collab drv Browser select) in
    do* assertElementExists collab fields select
          (Some "Selectable field") None in
    let option := option_array option in
    let field := head fields in
    let* promises := selectOption_loop field option [] in
    await (Promise_all promises)).

(** *** Predicates on states and events *)

(** An event that only looks things up: a timeout change or a query. *)
Definition is_lookup (ev : Event) : bool :=
  match ev with
  | EvImplicitlyWait _ | EvFindElement _ _ _ | EvFindElements _ _ _ => true
  | _ => false
  end.

(** A [findElements] query sent to the root [r]. *)
Definition on_root (r : Root) (ev : Event) : Prop :=
  exists q res, ev = EvFindElements r q res.

(** The click of one element. *)
Definition click_of (el : Element) (ev : Event) : Prop :=
  exists res, ev = EvClick el res.

(** A computation all of whose driver commands satisfy [P]. *)
Definition emits (P : Event -> Prop) {A} (m : M St A) : Prop :=
  forall s, exists tr : list Event,
    trace (fst (m s)) = (trace s ++ tr)%list /\ Forall P tr.

Definition emits_async (P : Event -> Prop) {A} (f : Async St A) : Prop :=
  forall s, exists tr : list Event,
    trace (fst (f s)) = (trace s ++ tr)%list /\ Forall P tr.

(** The two find properties and the two saved slots go in pairs. *)
Definition in_sync (s : St) : Prop :=
  browser_findElement s = browser_findElements s
  /\ stored "elFn" (withinStore s) = stored "elsFn" (withinStore s).
End MoreHelper.

(** ** End of a test and of a run *)

(** The commands [_after] and [_finishTest] queue on the session. *)
Inductive SessionCmd : Type :=
| Quit
| DeleteAllCookies
| ExecuteScript (script : string)
| CloseOtherTabs.

(** The helper together with the lifecycle options and the lifecycle
    commands queued so far.  The promises of these commands are not
    modelled: neither method looks at them. *)
Record Session (Page : Type) : Type := mkSession {
  helper : State Page;
  options_restart : bool;
  options_keepBrowserState : bool;
  options_keepCookies : bool;
  queued : list SessionCmd
}.

Arguments mkSession {Page}.
Arguments helper {Page} _.
Arguments options_restart {Page} _.
Arguments options_keepBrowserState {Page} _.
Arguments options_keepCookies {Page} _.
Arguments queued {Page} _.

Definition queue {Page} (cmds : list SessionCmd) (x : Session Page)
  : Session Page :=
  mkSession (helper x) (options_restart x) (options_keepBrowserState x)
    (options_keepCookies x) (queued x ++ cmds).

Definition _after {Page} (x : Session Page) : Session Page :=
  if negb (isRunning (helper x)) then x
  else if options_restart x then
    queue [Quit]
      (mkSession (set_isRunning false (helper x)) (options_restart x)
         (options_keepBrowserState x) (options_keepCookies x) (queued x))
  else if options_keepBrowserState x then x
  else if options_keepCookies x then
    queue [ExecuteScript "localStorage.clear();"; CloseOtherTabs] x
  else
    queue [DeleteAllCookies; ExecuteScript "localStorage.clear();";
           CloseOtherTabs] x.

Definition _finishTest {Page} (x : Session Page) : Session Page :=
  if negb (options_restart x) && isRunning (helper x)
  then queue [Quit] x
  else x.

(** How often the browser was told to quit. *)
Definition quits (cmds : list SessionCmd) : nat :=
  length (List.filter (fun c => match c with Quit => true | _ => false end)
            cmds).

(** ** More sample pages *)

(** A page with one select, element 20, found by its name [country]; its
    option 21 reads "Norway", its options 22 and 23 both have the value
    [se]. *)
Definition select_page : SamplePage :=
  {| sp_match r q :=
       match r with
       | Document => if query_is "name" "country" q then [20] else []
       | Within _ =>
           if query_is "xpath" (byVisibleText (fun x => x) "Norway") q
           then [21]
           else if query_is "xpath" (byValue (fun x => x) "se") q
           then [22; 23]
           else []
       end;
     sp_selected _ := false |}.

Definition select_session : State SamplePage :=
  started 0 false false select_page.

(** The login form once its scope was entered and found. *)
Definition login_scope : State SamplePage :=
  fst (_withinBegin sample_collab sample_driver (LString "#login")
         form_session).

(** A driver whose screenshot fails because the session is gone. *)
Definition gone_driver : Driver SamplePage :=
  {| d_findElement := d_findElement sample_driver;
     d_findElements := d_findElements sample_driver;
     d_isSelected := d_isSelected sample_driver;
     d_clear := d_clear sample_driver;
     d_sendKeys := d_sendKeys sample_driver;
     d_click := d_click sample_driver;
     d_screenshot _ pg :=
       (pg, Rejected (DriverError "WebDriverError" "RuntimeError"
                        "session was terminated due to TIMEOUT")) |}.

(** A running session that restarts the browser between tests. *)
Definition restarting : Session SamplePage :=
  mkSession form_session true false false [].

(** The login form with both checkboxes unchecked. *)
Definition unchecked_page : SamplePage :=
  {| sp_match := sp_match form_page; sp_selected _ := false |}.

Definition unchecked_session : State SamplePage :=
  started 0 false false unchecked_page.

(** A session configured with [disableScreenshots]. *)
Definition quiet_session : State SamplePage :=
  started 0 true false form_page.

(** A session configured with [uniqueScreenshotNames]. *)
Definition unique_session : State SamplePage :=
  started 0 false true form_page.

(** Two failed tests with the same title in different suites. *)
Definition test_a : Test := mkTest "login works" (Some "a1b2") None.
Definition test_b : Test := mkTest "login works" (Some "c3d4") None.

(** * Properties *)

Section Properties.
Context {Page : Type}.
Variable collab : Collaborators.
Variable drv : Driver Page.

Abbreviation St := (State Page).
Abbreviation keeps m := (keeps_scope (Page:=Page) m).
Abbreviation keeps_async f := (keeps_scope_async (Page:=Page) f).

Local Open Scope list_scope.

(** ** Classification and guessing *)

Lemma guessLocator_fuzzy locator :
  Locator.isFuzzy (Locator.new locator) = true ->
  guessLocator collab locator = Normal None.
Proof. unfold guessLocator. intros ->. reflexivity. Qed.

Lemma fuzzy_is_string locator :
  Locator.isFuzzy (Locator.new locator) = true ->
  exists x, locator = LString x /\ Locator.value (Locator.new locator) = x.
Proof.
  destruct locator as [x | k v]; simpl; [| discriminate].
  intros _. exists x. split; [reflexivity |].
  destruct (Locator.isCSS x); [reflexivity |].
  destruct (Locator.isXPath x); reflexivity.
Qed.

Lemma guessLocator_strict locator t :
  Locator.isFuzzy (Locator.new locator) = false ->
  Locator.type (Locator.new locator) = Some t ->
  truthy t = true ->
  by_has collab t = true ->
  guessLocator collab locator =
    Normal (Some (mkBy t (LString (Locator.value (Locator.new locator))))).
Proof.
  unfold guessLocator, by_member. intros -> -> -> ->. reflexivity.
Qed.

Lemma guessLocator_unknown_strategy locator t :
  Locator.isFuzzy (Locator.new locator) = false ->
  Locator.type (Locator.new locator) = Some t ->
  truthy t = true ->
  by_has collab t = false ->
  guessLocator collab locator =
    Throw (TypeError "global.by[l.type] is not a function").
Proof.
  unfold guessLocator, by_member. intros -> -> -> ->. reflexivity.
Qed.

(** ** Traces *)

Lemma queries_app tr1 tr2 : queries (tr1 ++ tr2) = queries tr1 ++ queries tr2.
Proof. unfold queries. apply List.filter_app. Qed.

(** ** Frame: what a driver command leaves alone *)

Lemma same_scope_refl (s : St) : same_scope s s.
Proof. repeat split. Qed.

Lemma same_scope_trans (s1 s2 s3 : St) :
  same_scope s1 s2 -> same_scope s2 s3 -> same_scope s1 s3.
Proof.
  unfold same_scope. intros (? & ? & ? & ? & ?) (? & ? & ? & ? & ?).
  repeat split; congruence.
Qed.

Lemma keeps_ret {A} (a : A) : keeps (ret a).
Proof. intros s. apply same_scope_refl. Qed.

Lemma keeps_throw {A} e : keeps (throw (A:=A) e).
Proof. intros s. apply same_scope_refl. Qed.

Lemma keeps_lift {A} (c : Completion A) : keeps (lift c).
Proof. intros s. apply same_scope_refl. Qed.

Lemma keeps_await {A} (p : Promise A) : keeps (await p).
Proof. intros s. apply same_scope_refl. Qed.

Lemma keeps_gets {A} (f : St -> A) : keeps (gets f).
Proof. intros s. apply same_scope_refl. Qed.

Lemma keeps_bind {A B} (m : M St A) (k : A -> M St B) :
  keeps m -> (forall a, keeps (k a)) -> keeps (bind m k).
Proof.
  intros Hm Hk s. unfold bind. specialize (Hm s).
  destruct (m s) as [s1 [a | e]]; simpl in *; [| exact Hm].
  eapply same_scope_trans; [exact Hm | apply Hk].
Qed.

Lemma keeps_async_intro {A} (body : M St A) :
  keeps body -> keeps_async (async body).
Proof.
  intros H s. unfold async. specialize (H s).
  destruct (body s) as [s1 c]. exact H.
Qed.

Lemma keeps_call {A} (f : Async St A) : keeps_async f -> keeps (call f).
Proof.
  intros H s. unfold call. specialize (H s).
  destruct (f s) as [s1 p]. exact H.
Qed.

Lemma keeps_await_call {A} (f : Async St A) :
  keeps_async f -> keeps (await_call f).
Proof.
  intros H. unfold await_call.
  apply keeps_bind; [apply keeps_call, H | intros p; apply keeps_await].
Qed.

Lemma keeps_implicitlyWait ms : keeps (implicitlyWait ms).
Proof. intros s. repeat split. Qed.

Lemma keeps_issue_findElement r q : keeps (issue_findElement drv r q).
Proof.
  intros s. unfold issue_findElement.
  destruct (d_findElement drv _ r q _) as [pg res]. repeat split.
Qed.

Lemma keeps_issue_findElements r q : keeps (issue_findElements drv r q).
Proof.
  intros s. unfold issue_findElements.
  destruct (d_findElements drv _ r q _) as [pg res]. repeat split.
Qed.

Lemma keeps_isSelected el : keeps (isSelected drv el).
Proof.
  intros s. unfold isSelected.
  destruct (d_isSelected drv el _) as [pg res]. repeat split.
Qed.

Lemma keeps_clear el : keeps (clear drv el).
Proof.
  intros s. unfold clear.
  destruct (d_clear drv el _) as [pg res]. repeat split.
Qed.

Lemma keeps_sendKeys el keys : keeps (sendKeys drv el keys).
Proof.
  intros s. unfold sendKeys.
  destruct (d_sendKeys drv el keys _) as [pg res]. repeat split.
Qed.

Lemma keeps_el_click el : keeps (el_click drv el).
Proof.
  intros s. unfold el_click.
  destruct (d_click drv el _) as [pg res]. repeat split.
Qed.

Lemma keeps_saveScreenshot fileName : keeps_async (saveScreenshot drv fileName).
Proof.
  intros s. unfold saveScreenshot.
  destruct (d_screenshot drv fileName _) as [pg p]. repeat split.
Qed.

Lemma keeps_findElement client q : keeps (findElement drv client q).
Proof.
  destruct client; simpl; [| apply keeps_issue_findElement].
  apply keeps_bind; [apply keeps_gets |].
  intros [| r]; simpl; [apply keeps_throw | apply keeps_issue_findElement].
Qed.

Lemma keeps_findElements client q : keeps (findElements drv client q).
Proof.
  destruct client; simpl; [| apply keeps_issue_findElements].
  apply keeps_bind; [apply keeps_gets |].
  intros [| r]; simpl; [apply keeps_throw | apply keeps_issue_findElements].
Qed.

Lemma keeps_assertElementExists res locator prefix suffix :
  keeps (assertElementExists collab res locator prefix suffix).
Proof. destruct res; [apply keeps_throw | apply keeps_ret]. Qed.

Lemma keeps_first_of els prop : keeps (first_of (Page:=Page) els prop).
Proof. destruct els; [apply keeps_throw | apply keeps_ret]. Qed.

Lemma keeps_smartWait {R} (fn : M St (Promise R)) enabled :
  keeps fn -> keeps_async (_smartWait fn enabled).
Proof.
  intros Hfn. apply keeps_async_intro.
  apply keeps_bind; [apply keeps_gets | intros sw].
  destruct (_ || _).
  - apply keeps_bind; [exact Hfn | intros; apply keeps_await].
  - apply keeps_bind; [apply keeps_implicitlyWait | intros _].
    apply keeps_bind; [exact Hfn | intros res].
    apply keeps_bind; [apply keeps_implicitlyWait | intros _].
    apply keeps_await.
Qed.

(** ** Queries through a client *)

Lemma findElements_root client q s r :
  client_root client s = Some r ->
  findElements drv client q s = issue_findElements drv r q s.
Proof.
  destruct client as [| el]; simpl.
  - unfold bind, gets. destruct (browser_findElements s); [discriminate |].
    intros [= ->]. reflexivity.
  - intros [= <-]. reflexivity.
Qed.

Lemma issue_findElements_spec r q s :
  exists pg res,
    d_findElements drv (implicitWait s) r q (page s) = (pg, res)
    /\ issue_findElements drv r q s = (record pg (EvFindElements r q res) s, res).
Proof.
  unfold issue_findElements.
  destruct (d_findElements drv _ r q _) as [pg res]. eauto.
Qed.

Lemma client_root_record client pg ev (s : St) :
  client_root client (record pg ev s) = client_root client s.
Proof. destruct client; reflexivity. Qed.

(** ** The "first non-empty wins" rule *)

(** A run of the rule issues a prefix of the strategies, in order; every
    query but the last one issued matched nothing; the outcome is the
    answer to the last one issued; and an empty answer is only returned by
    the last strategy of the list. *)
Lemma first_nonempty_trace client strategies :
  strategies <> [] ->
  forall s r,
    client_root client s = Some r ->
    exists n q res,
      strategies !! n = Some q
      /\ trace (fst (first_nonempty drv client strategies s))
         = trace s ++ map (no_match r) (take n strategies)
             ++ [EvFindElements r q res]
      /\ snd (first_nonempty drv client strategies s) = awaited res
      /\ (res = Normal (Resolved []) -> S n = length strategies).
Proof.
  induction strategies as [| q rest IH]; [congruence | intros _ s r Hr].
  destruct (issue_findElements_spec r q s) as (pg & res & _ & Hrun).
  assert (Hhead :
    forall k : Promise (list Element) -> M St (list Element),
      bind (findElements drv client q) k s
      = match res with
        | Normal p => k p (record pg (EvFindElements r q res) s)
        | Throw e => (record pg (EvFindElements r q res) s, Throw e)
        end).
  { intros k. unfold bind. rewrite (findElements_root _ _ _ _ Hr), Hrun.
    destruct res; reflexivity. }
  destruct rest as [| q' rest'].
  - (* the last strategy: its answer is returned as it is *)
    exists 0%nat, q, res. simpl first_nonempty. rewrite Hhead.
    split; [reflexivity |].
    destruct res as [[els | e] | e]; simpl; auto.
  - change (first_nonempty drv client (q :: q' :: rest') s)
      with (bind (findElements drv client q)
              (fun p => bind (await p)
                 (fun els => match els with
                             | _ :: _ => ret els
                             | [] => first_nonempty drv client (q' :: rest')
                             end)) s).
    rewrite Hhead.
    destruct res as [[[| el els] | e] | e];
      try (exists 0%nat, q; eexists; simpl;
           repeat split; first [reflexivity | discriminate]).
    (* no match: go on with the remaining strategies *)
    set (s1 := record pg (EvFindElements r q (Normal (Resolved []))) s).
    destruct (IH ltac:(discriminate) s1 r) as (n & qn & resn & Hn & Htr & Hres & Hlast).
    { unfold s1. rewrite client_root_record. exact Hr. }
    exists (S n), qn, resn.
    change (bind (await (Resolved [])) _ s1)
      with (first_nonempty drv client (q' :: rest') s1).
    repeat split; [exact Hn | | exact Hres | ].
    + rewrite Htr. unfold s1. simpl. rewrite <- app_assoc. reflexivity.
    + intros H. simpl. f_equal. apply Hlast, H.
Qed.



Lemma async_fst {A} (body : M St A) s : fst (async body s) = fst (body s).
Proof. unfold async. destruct (body s). reflexivity. Qed.

Lemma async_snd {A} (body : M St A) s :
  snd (async body s) = promise_of (snd (body s)).
Proof. unfold async. destruct (body s). reflexivity. Qed.

Lemma findElements_cases client q s :
  findElements drv client q s
  = (s, Throw (TypeError "this.browser.findElements is not a function"))
  \/ exists r pg res,
      findElements drv client q s
      = (record pg (EvFindElements r q res) s, res).
Proof.
  destruct (client_root client s) as [r |] eqn:Hr.
  - right. destruct (issue_findElements_spec r q s) as (pg & res & _ & H).
    exists r, pg, res. rewrite (findElements_root _ _ _ _ Hr). exact H.
  - left. destruct client; [| discriminate]. simpl in *.
    unfold bind, gets. destruct (browser_findElements s); [| discriminate].
    reflexivity.
Qed.

Lemma findElement_cases client q s :
  findElement drv client q s
  = (s, Throw (TypeError "this.browser.findElement is not a function"))
  \/ exists r pg res,
      findElement drv client q s
      = (record pg (EvFindElement r q res) s, res).
Proof.
  assert (Hissue : forall r, exists pg res,
             issue_findElement drv r q s
             = (record pg (EvFindElement r q res) s, res)).
  { intros r. unfold issue_findElement.
    destruct (d_findElement drv _ r q _) as [pg res]. eauto. }
  destruct client as [| el]; simpl.
  - unfold bind, gets. destruct (browser_findElement s) as [| r]; simpl.
    + left. reflexivity.
    + right. destruct (Hissue r) as (pg & res & H). eauto.
  - right. destruct (Hissue (Within el)) as (pg & res & H). eauto.
Qed.





(** ** SmartWait *)

Lemma promise_of_settle {A} (p : Promise A) : promise_of (settle p) = p.
Proof. destruct p; reflexivity. Qed.

(** SmartWait switched off: [fn] runs alone. *)
Lemma smartWait_off {R} (fn : M St (Promise R)) enabled s :
  (options_smartWait s =? 0)%Z || negb enabled = true ->
  _smartWait fn enabled s = (fst (fn s), promise_of (awaited (snd (fn s)))).
Proof.
  intros H. unfold _smartWait, async, bind, gets. rewrite H.
  destruct (fn s) as [s1 [p | e]]; simpl; [| reflexivity].
  destruct p; reflexivity.
Qed.

(** SmartWait switched on and [fn] returns: the timeout is set, [fn] runs,
    the timeout is reset, and [fn]'s promise is handed back. *)
Lemma smartWait_on_returns {R} (fn : M St (Promise R)) s s1 p :
  options_smartWait s <> 0%Z ->
  fn (fst (implicitlyWait (options_smartWait s) s)) = (s1, Normal p) ->
  _smartWait fn true s = (fst (implicitlyWait 0 s1), p).
Proof.
  intros Hsw Hfn. unfold _smartWait, async, bind, gets.
  apply Z.eqb_neq in Hsw. rewrite Hsw. simpl in *. rewrite Hfn. simpl.
  rewrite promise_of_settle. reflexivity.
Qed.

Lemma smartWait_resets_when_fn_returns {R} (fn : M St (Promise R)) s s1 p :
  options_smartWait s <> 0%Z ->
  fn (fst (implicitlyWait (options_smartWait s) s)) = (s1, Normal p) ->
  implicitWait (fst (_smartWait fn true s)) = 0%Z.
Proof.
  intros Hsw Hfn. rewrite (smartWait_on_returns fn s s1 p Hsw Hfn).
  reflexivity.
Qed.

(** C1.  With SmartWait switched on (a non-zero configured timeout, the
    call not opting out), when [fn] throws the exception leaves
    [_smartWait] before the reset: the state [fn] left is the final state,
    no [implicitlyWait(0)] is sent, and the session keeps whatever timeout
    was in force when [fn] threw. *)
Theorem smartWait_skips_reset_when_fn_throws
    {R} (fn : M St (Promise R)) s s1 e :
  options_smartWait s <> 0%Z ->
  fn (fst (implicitlyWait (options_smartWait s) s)) = (s1, Throw e) ->
  _smartWait fn true s = (s1, Rejected e)
  /\ implicitWait (fst (_smartWait fn true s)) = implicitWait s1
  /\ trace (fst (_smartWait fn true s)) = trace s1.
Proof.
  intros Hsw Hfn.
  assert (H : _smartWait fn true s = (s1, Rejected e)).
  { unfold _smartWait, async, bind, gets.
    apply Z.eqb_neq in Hsw. rewrite Hsw. simpl in *. rewrite Hfn.
    reflexivity. }
  rewrite H. auto.
Qed.

(** ** The locate entry point *)

Lemma locate_is_smartWait locator smartWait s :
  _locate collab drv locator smartWait s
  = _smartWait (let* q := lift (guessed collab locator) in
                findElements drv Browser q) smartWait s.
Proof.
  unfold _locate, async, bind, call, await, lift.
  destruct (_smartWait _ smartWait s) as [s1 p]. simpl.
  rewrite promise_of_settle. reflexivity.
Qed.

(** When [guessLocator] returns (a [By] or [false]), [_locate] sends one
    [findElements] with that value to the current root and hands back the
    driver's answer. *)
Lemma locate_run locator smartWait s r q :
  guessed collab locator = Normal q ->
  browser_findElements s = Fn r ->
  exists w pg res,
    d_findElements drv w r q (page s) = (pg, res)
    /\ page (fst (_locate collab drv locator smartWait s)) = pg
    /\ queries (trace (fst (_locate collab drv locator smartWait s)))
       = queries (trace s) ++ [EvFindElements r q res]
    /\ snd (_locate collab drv locator smartWait s) = promise_of (awaited res).
Proof.
  intros Hq Hb. rewrite locate_is_smartWait.
  unfold _smartWait, async, findElements, bind, gets, lift. rewrite Hq.
  destruct ((options_smartWait s =? 0)%Z || negb smartWait); simpl;
    rewrite Hb; simpl; unfold issue_findElements; simpl.
  - destruct (d_findElements drv (implicitWait s) r q (page s))
      as [pg res] eqn:Hd.
    exists (implicitWait s), pg, res. split; [exact Hd |].
    destruct res as [[els | e] | e]; simpl;
      rewrite queries_app; repeat split.
  - destruct (d_findElements drv (options_smartWait s) r q (page s))
      as [pg res] eqn:Hd.
    exists (options_smartWait s), pg, res. split; [exact Hd |].
    destruct res as [[els | e] | e]; simpl;
      rewrite !queries_app; simpl; rewrite ?app_nil_r; repeat split.
Qed.

(** C4, as amended.  For a fuzzy locator [_locate] runs no strategy chain:
    whatever the driver answers, the commands it sends are one
    [findElements] call to the current root and, around it, settings of the
    implicit-wait timeout only; the outcome of that one call is the result,
    so an answer without matches is the result too and no further query
    follows it. *)
Theorem locate_fuzzy_single_call locator smartWait s r :
  Locator.isFuzzy (Locator.new locator) = true ->
  browser_findElements s = Fn r ->
  exists q res pre post,
    trace (fst (_locate collab drv locator smartWait s))
    = trace s ++ pre ++ EvFindElements r q res :: post
    /\ Forall is_timeout pre
    /\ Forall is_timeout post
    /\ snd (_locate collab drv locator smartWait s) = promise_of (awaited res).
Proof.
  intros Hf Hb.
  assert (Hq : guessed collab locator = Normal QFalse).
  { unfold guessed. rewrite (guessLocator_fuzzy _ Hf). reflexivity. }
  rewrite locate_is_smartWait.
  unfold _smartWait, async, findElements, bind, gets, lift. rewrite Hq.
  destruct ((options_smartWait s =? 0)%Z || negb smartWait); simpl;
    rewrite Hb; simpl; unfold issue_findElements; simpl.
  - destruct (d_findElements drv (implicitWait s) r QFalse (page s))
      as [pg res].
    exists QFalse, res, [], [].
    destruct res as [[els | e] | e]; simpl; repeat split; constructor.
  - destruct (d_findElements drv (options_smartWait s) r QFalse (page s))
      as [pg res].
    exists QFalse, res, [EvImplicitlyWait (options_smartWait s)].
    destruct res as [[els | e] | e]; simpl.
    + exists [EvImplicitlyWait 0]. rewrite <- !app_assoc.
      repeat split; repeat constructor.
    + exists [EvImplicitlyWait 0]. rewrite <- !app_assoc.
      repeat split; repeat constructor.
    + exists []. rewrite <- !app_assoc.
      repeat split; repeat constructor.
Qed.

(** C9, as amended.  For a non-fuzzy locator whose type names a member of
    the driver's [By] namespace, [_locate] sends exactly one [findElements]
    to the current root, with the [By] built from the locator's type and
    value, and hands back the driver's answer as it is: a fulfilled list,
    empty or not, is the result, and nothing is thrown for "no matches". *)
Theorem locate_strict_single_query locator smartWait s r t :
  Locator.isFuzzy (Locator.new locator) = false ->
  Locator.type (Locator.new locator) = Some t ->
  truthy t = true ->
  by_has collab t = true ->
  browser_findElements s = Fn r ->
  let q := QBy (mkBy t (LString (Locator.value (Locator.new locator)))) in
  exists w pg res,
    d_findElements drv w r q (page s) = (pg, res)
    /\ queries (trace (fst (_locate collab drv locator smartWait s)))
       = queries (trace s) ++ [EvFindElements r q res]
    /\ snd (_locate collab drv locator smartWait s) = promise_of (awaited res)
    /\ (forall els,
          res = Normal (Resolved els) ->
          snd (_locate collab drv locator smartWait s) = Resolved els).
Proof.
  intros Hf Ht Htruthy Hby Hb q.
  assert (Hq : guessed collab locator = Normal q).
  { unfold guessed. rewrite (guessLocator_strict _ _ Hf Ht Htruthy Hby).
    reflexivity. }
  destruct (locate_run locator smartWait s r q Hq Hb)
    as (w & pg & res & Hd & _ & Htr & Hres).
  exists w, pg, res. repeat split; [exact Hd | exact Htr | exact Hres |].
  intros els ->. rewrite Hres. reflexivity.
Qed.

(** ** Scoping *)

Local Arguments findElement : simpl never.
Local Arguments findElements : simpl never.

Lemma stored_entered locator (s : St) :
  stored "elFn" (withinStore (entered locator s)) = browser_findElement s
  /\ stored "elsFn" (withinStore (entered locator s)) = browser_findElements s.
Proof.
  unfold stored, entered. simpl. split.
  - rewrite lookup_insert_ne by discriminate.
    rewrite lookup_insert_eq. reflexivity.
  - rewrite lookup_insert_eq. reflexivity.
Qed.

(** The state [_withinBegin] leaves, for each way it can end: the saved
    slots and the search root are written in every case; the find
    properties are rebound only when the element was found. *)
Lemma withinBegin_state locator s :
  let s' := fst (_withinBegin collab drv locator s) in
  withinStore s' = withinStore (entered locator s)
  /\ context s' = locator
  /\ options_rootElement s' = options_rootElement s
  /\ match snd (_withinBegin collab drv locator s) with
     | Normal (Resolved el) =>
         browser_findElement s' = Fn (Within el)
         /\ browser_findElements s' = Fn (Within el)
     | _ =>
         browser_findElement s' = browser_findElement s
         /\ browser_findElements s' = browser_findElements s
     end.
Proof.
  intros s'. subst s'.
  unfold _withinBegin, bind, gets, modify, lift, ret. simpl.
  destruct (guessed_or_css collab locator) as [q | e]; simpl;
    [| repeat split].
  match goal with
  | |- context [findElement drv Browser q ?s1] =>
      destruct (findElement_cases Browser q s1)
        as [-> | (r & pg & res & ->)]; [repeat split |]
  end.
  destruct res as [[el | e] | e]; simpl; repeat split.
Qed.

Lemma withinBegin_found locator s s1 el :
  _withinBegin collab drv locator s = (s1, Normal (Resolved el)) ->
  withinStore s1 = withinStore (entered locator s)
  /\ context s1 = locator
  /\ options_rootElement s1 = options_rootElement s
  /\ browser_findElement s1 = Fn (Within el)
  /\ browser_findElements s1 = Fn (Within el).
Proof.
  intros H. pose proof (withinBegin_state locator s) as Hs.
  rewrite H in Hs. simpl in Hs. exact Hs.
Qed.

Lemma withinEnd_run (s : St) :
  _withinEnd s
  = (set_context (options_rootElement s)
       (set_withinStore ∅
          (set_findElements (stored "elsFn" (withinStore s))
             (set_findElement (stored "elFn" (withinStore s)) s))),
     Normal tt).
Proof. reflexivity. Qed.

(** ** The failure hook *)

Lemma keeps_set_isRunning b : keeps (modify (set_isRunning (Page:=Page) b)).
Proof. intros s. repeat split. Qed.

Ltac keeps_tac :=
  repeat first
    [ apply keeps_ret | apply keeps_throw | apply keeps_lift
    | apply keeps_await | apply keeps_gets | apply keeps_implicitlyWait
    | apply keeps_findElement | apply keeps_findElements
    | apply keeps_isSelected | apply keeps_clear | apply keeps_sendKeys
    | apply keeps_el_click | apply keeps_assertElementExists
    | apply keeps_first_of | apply keeps_saveScreenshot
    | apply keeps_set_isRunning
    | apply keeps_await_call | apply keeps_call | apply keeps_async_intro
    | apply keeps_smartWait
    | apply keeps_bind; [| intros ?]
    | match goal with
      | |- keeps (match ?x with _ => _ end) => destruct x
      end ].

Lemma bind_keeps_after {A B} (m : M St A) (k : A -> M St B) s :
  (forall a, keeps (k a)) -> same_scope (fst (m s)) (fst (bind m k s)).
Proof.
  intros Hk. unfold bind.
  destruct (m s) as [s1 [a | e]]; simpl; [apply Hk | apply same_scope_refl].
Qed.

Lemma keeps_failed_fileName test : keeps (failed_fileName collab test).
Proof. unfold failed_fileName. keeps_tac. Qed.

(** [_failed] leaves the scoping state as it found it when nothing is
    stored, and as [_withinEnd] leaves it otherwise. *)
Lemma failed_scope test s :
  same_scope
    (if (size (withinStore s) =? 0)%nat then s else fst (_withinEnd s))
    (fst (_failed collab drv test s)).
Proof.
  unfold _failed. unfold bind at 1. unfold gets at 1.
  eapply same_scope_trans; [| apply bind_keeps_after; intros ended ].
  - destruct (size (withinStore s) =? 0)%nat; apply same_scope_refl.
  - pose proof keeps_failed_fileName. keeps_tac.
Qed.

(** C3.  When [_failed] runs while a scope is active (the store is not
    empty) it calls [_withinEnd]: whatever the screenshot part does
    afterwards, the find properties are back to the saved ones, the store
    is empty and the search root is the root element again. *)
Theorem failed_releases_scope test s :
  withinStore s <> ∅ ->
  let s' := fst (_failed collab drv test s) in
  browser_findElement s' = stored "elFn" (withinStore s)
  /\ browser_findElements s' = stored "elsFn" (withinStore s)
  /\ withinStore s' = ∅
  /\ context s' = options_rootElement s.
Proof.
  intros Hne s'. pose proof (failed_scope test s) as H. fold s' in H.
  assert (Hsz : (size (withinStore s) =? 0)%nat = false).
  { apply Nat.eqb_neq. intros Hz. apply Hne, map_size_empty_iff, Hz. }
  rewrite Hsz, withinEnd_run in H. simpl in H.
  destruct H as (_ & Hc & Hf & Hfs & Hs). auto.
Qed.

(** A scope opened by [_withinBegin], however the search ended, is
    released by [_failed]: the find properties are the ones in place
    before entry. *)
Lemma failed_after_withinBegin locator test s :
  let s1 := fst (_withinBegin collab drv locator s) in
  let s2 := fst (_failed collab drv test s1) in
  browser_findElement s2 = browser_findElement s
  /\ browser_findElements s2 = browser_findElements s
  /\ withinStore s2 = ∅
  /\ context s2 = options_rootElement s.
Proof.
  intros s1 s2.
  destruct (withinBegin_state locator s) as (Hst & _ & Hroot & _).
  fold s1 in Hst, Hroot.
  assert (Hne : withinStore s1 <> ∅).
  { rewrite Hst. unfold entered. simpl. apply insert_non_empty. }
  pose proof (failed_scope test s1) as H. fold s2 in H.
  assert (Hsz : (size (withinStore s1) =? 0)%nat = false).
  { apply Nat.eqb_neq. intros Hz. apply Hne, map_size_empty_iff, Hz. }
  rewrite Hsz, withinEnd_run in H. simpl in H.
  destruct H as (_ & H4 & H1 & H2 & H3). rewrite Hst in H1, H2.
  destruct (stored_entered locator s) as [E1 E2].
  rewrite E1 in H1. rewrite E2 in H2. rewrite Hroot in H4. auto.
Qed.

(** ** The scoping invariant *)

Lemma keeps_locate locator smartWait :
  keeps_async (_locate collab drv locator smartWait).
Proof. unfold _locate. keeps_tac. Qed.

Lemma keeps_findFields client locator :
  keeps_async (findFields collab drv client locator).
Proof. unfold findFields. keeps_tac. Qed.

Lemma keeps_findCheckable client locator :
  keeps_async (findCheckable collab drv client locator).
Proof. unfold findCheckable. keeps_tac. Qed.

Lemma keeps_findClickable matcher locator :
  keeps_async (findClickable collab drv matcher locator).
Proof. unfold findClickable. keeps_tac. Qed.

Lemma keeps_click locator context :
  keeps_async (click collab drv locator context).
Proof.
  pose proof keeps_findClickable. unfold click.
  apply keeps_async_intro, keeps_bind.
  - destruct (given context); keeps_tac.
  - intros matcher. apply keeps_bind; [apply keeps_await_call, H |].
    intros el. keeps_tac.
Qed.

Lemma keeps_fillField field value :
  keeps_async (fillField collab drv field value).
Proof.
  unfold fillField. apply keeps_async_intro, keeps_bind;
    [apply keeps_await_call, keeps_findFields | intros els; keeps_tac].
Qed.

Lemma keeps_appendField field value :
  keeps_async (appendField collab drv field value).
Proof.
  unfold appendField. apply keeps_async_intro, keeps_bind;
    [apply keeps_await_call, keeps_findFields | intros els; keeps_tac].
Qed.

Lemma keeps_clearField field : keeps_async (clearField collab drv field).
Proof.
  unfold clearField. apply keeps_async_intro, keeps_bind;
    [apply keeps_await_call, keeps_findFields | intros els; keeps_tac].
Qed.

Lemma keeps_isSelected_each els : keeps (isSelected_each drv els).
Proof.
  induction els as [| el rest IH]; simpl; [apply keeps_ret |].
  apply keeps_bind; [apply keeps_isSelected | intros p].
  apply keeps_bind; [exact IH | intros ps; apply keeps_ret].
Qed.

Lemma keeps_proceedIsChecked assertType option :
  keeps_async (proceedIsChecked collab drv assertType option).
Proof.
  unfold proceedIsChecked. apply keeps_async_intro, keeps_bind;
    [apply keeps_await_call, keeps_findCheckable | intros els].
  apply keeps_bind; [apply keeps_assertElementExists | intros _].
  apply keeps_bind; [apply keeps_isSelected_each | intros ps].
  keeps_tac.
Qed.

Lemma same_scope_inv (s s' : St) :
  same_scope s s' -> scope_inv s -> scope_inv s'.
Proof.
  unfold same_scope, scope_inv. intros (Hr & Hc & _ & _ & Hs) Hinv Hemp.
  rewrite Hr, Hc. apply Hinv. congruence.
Qed.

Lemma step_scope_inv s s' :
  step collab drv s s' -> scope_inv s -> scope_inv s'.
Proof.
  intros Hstep Hinv. destruct Hstep.
  - (* _withinBegin: the store is not empty afterwards *)
    intros Hemp. exfalso.
    destruct (withinBegin_state locator s) as (Hst & _).
    rewrite Hst in Hemp. unfold entered in Hemp. simpl in Hemp.
    exact (insert_non_empty _ _ _ Hemp).
  - intros _. reflexivity.
  - eapply same_scope_inv; [apply failed_scope |].
    destruct (size (withinStore s) =? 0)%nat; [exact Hinv |].
    intros _. reflexivity.
  - eapply same_scope_inv; [apply keeps_locate | exact Hinv].
  - eapply same_scope_inv; [apply keeps_click | exact Hinv].
  - eapply same_scope_inv; [apply keeps_fillField | exact Hinv].
  - eapply same_scope_inv; [apply keeps_appendField | exact Hinv].
  - eapply same_scope_inv; [apply keeps_clearField | exact Hinv].
  - eapply same_scope_inv; [| exact Hinv].
    apply keeps_async_intro, keeps_await_call, keeps_proceedIsChecked.
  - eapply same_scope_inv; [| exact Hinv].
    apply keeps_async_intro, keeps_await_call, keeps_proceedIsChecked.
Qed.

(** In every state a test can reach, an empty store means that the search
    root is the root element. *)
Lemma reachable_scope_inv s : reachable collab drv s -> scope_inv s.
Proof.
  induction 1 as [sw ds us pg | s s' _ IH Hstep].
  - intros _. reflexivity.
  - exact (step_scope_inv s s' Hstep IH).
Qed.

(** C2.  From a reachable state with no active scope, a [_withinBegin]
    that finds its element followed by [_withinEnd] puts the two find
    properties and the search root back to their values before entry and
    leaves the store empty. *)
Theorem withinBegin_withinEnd_restores locator s s1 el :
  reachable collab drv s ->
  withinStore s = ∅ ->
  _withinBegin collab drv locator s = (s1, Normal (Resolved el)) ->
  exists s2,
    _withinEnd s1 = (s2, Normal tt)
    /\ browser_findElement s2 = browser_findElement s
    /\ browser_findElements s2 = browser_findElements s
    /\ context s2 = context s
    /\ withinStore s2 = ∅.
Proof.
  intros Hreach Hemp Hbegin.
  destruct (withinBegin_found locator s s1 el Hbegin)
    as (Hst & _ & Hroot & _ & _).
  destruct (stored_entered locator s) as [E1 E2].
  eexists. split; [apply withinEnd_run |]. simpl.
  rewrite Hst, E1, E2, Hroot.
  rewrite (reachable_scope_inv s Hreach Hemp). auto.
Qed.

(** C5, as amended.  When the driver's [findElement] rejects for the
    locator (nothing resolves), the promise of [_withinBegin] rejects with
    that very error: no [ElementNotFound] is built.  The store and the
    search root have been written by then and stay written; the find
    properties are untouched. *)
Theorem withinBegin_propagates_driver_error locator s r q pg e :
  browser_findElement s = Fn r ->
  guessed_or_css collab locator = Normal q ->
  d_findElement drv (implicitWait s) r q (page s) = (pg, Normal (Rejected e)) ->
  let s' := fst (_withinBegin collab drv locator s) in
  snd (_withinBegin collab drv locator s) = Normal (Rejected e)
  /\ trace s' = trace s ++ [EvFindElement r q (Normal (Rejected e))]
  /\ context s' = locator
  /\ withinStore s' = withinStore (entered locator s)
  /\ browser_findElement s' = browser_findElement s
  /\ browser_findElements s' = browser_findElements s.
Proof.
  intros Hb Hq Hd s'. subst s'.
  unfold _withinBegin, findElement, bind, gets, modify, lift, ret. simpl.
  rewrite Hq, Hb. simpl. unfold issue_findElement. simpl. rewrite Hd.
  simpl. repeat split. exact Hb.
Qed.

(** ** Checkbox state *)

Lemma fold_left_orb_true (vs : list bool) (v : bool) :
  fold_left orb vs v = true <-> v = true \/ true ∈ vs.
Proof.
  revert v. induction vs as [| w vs IH]; intros v; simpl.
  - rewrite elem_of_nil. tauto.
  - rewrite IH, elem_of_cons, orb_true_iff. intuition congruence.
Qed.

Lemma reduce_or_spec (values : list bool) :
  values <> [] ->
  exists selected,
    reduce_or values = Normal selected
    /\ (selected = true <-> true ∈ values).
Proof.
  destruct values as [| v vs]; [congruence | intros _].
  exists (fold_left orb vs v). split; [reflexivity |].
  rewrite fold_left_orb_true, elem_of_cons. intuition congruence.
Qed.

Lemma Promise_all_resolved {A} (values : list A) :
  Promise_all (map Resolved values) = Resolved values.
Proof.
  induction values as [| v values IH]; simpl; [| rewrite IH]; reflexivity.
Qed.

Lemma selected_states_length els : forall pg values pg',
  selected_states drv els pg values pg' -> length values = length els.
Proof.
  induction els as [| el els IH]; intros pg [| v values] pg'; simpl;
    try tauto.
  intros (pg1 & _ & Hrest). f_equal. exact (IH _ _ _ Hrest).
Qed.

(** Reading the selected states: one [isSelected] per matched element, in
    the order of the list, each answered by the driver. *)
Lemma isSelected_each_run els : forall (s : St) values pg2,
  selected_states drv els (page s) values pg2 ->
  exists s2,
    isSelected_each drv els s = (s2, Normal (map Resolved values))
    /\ trace s2 = trace s ++ selected_events els values
    /\ page s2 = pg2.
Proof.
  induction els as [| el els IH]; intros s [| v values] pg2; simpl;
    try tauto.
  - intros ->. exists s. rewrite app_nil_r. repeat split.
  - intros (pg1 & Hd & Hrest).
    unfold bind at 1. unfold isSelected at 1. rewrite Hd.
    set (s1 := record pg1 (EvIsSelected el (Normal (Resolved v))) s).
    destruct (IH s1 values pg2 Hrest) as (s2 & Hrun & Htr & Hpg).
    exists s2. unfold bind, ret. rewrite Hrun.
    split; [reflexivity |]. split; [| exact Hpg].
    rewrite Htr. unfold s1, selected_events. simpl.
    rewrite <- app_assoc. reflexivity.
Qed.

Lemma selected_at (els : list Element) (values : list bool) :
  length values = length els ->
  (true ∈ values <-> exists i el, els !! i = Some el /\ values !! i = Some true).
Proof.
  intros Hlen. split.
  - intros Hin. apply list_elem_of_lookup in Hin as (i & Hi).
    destruct (lookup_lt_is_Some_2 els i) as (el & Hel).
    { rewrite <- Hlen. apply (lookup_lt_Some _ _ _ Hi). }
    eauto.
  - intros (i & el & _ & Hi). apply (list_elem_of_lookup_2 _ _ _ Hi).
Qed.

(** The run of [proceedIsChecked] on a non-empty match list whose selected
    states the driver reports: the states are read from the driver, one
    element after the other, and what is handed to [truth] is true exactly
    when the driver reported one of the matched elements as selected. *)
Lemma proceedIsChecked_run assertType field s s1 els values pg2 :
  findCheckable collab drv Browser field s = (s1, Resolved els) ->
  els <> [] ->
  selected_states drv els (page s1) values pg2 ->
  exists s2 selected,
    proceedIsChecked collab drv assertType field s
    = (s2, promise_of (truth ("checkable " ++ js_String field)
                         "to be checked" assertType selected))
    /\ trace s2 = trace s1 ++ selected_events els values
    /\ page s2 = pg2
    /\ (selected = true
        <-> exists i el, els !! i = Some el /\ values !! i = Some true).
Proof.
  intros Hfind Hne Hsel.
  pose proof (selected_states_length _ _ _ _ Hsel) as Hlen.
  destruct (isSelected_each_run els s1 values pg2 Hsel)
    as (s2 & Heach & Htr & Hpg).
  assert (Hvals : values <> []).
  { intros ->. destruct els; [congruence | discriminate]. }
  destruct (reduce_or_spec values Hvals) as (selected & Hred & Hor).
  assert (Hexists :
    assertElementExists collab els field (Some "Option") None s1
    = (s1, Normal tt)).
  { destruct els; [congruence | reflexivity]. }
  exists s2, selected.
  unfold proceedIsChecked, await_call, call, async, bind, await, lift.
  rewrite Hfind. cbn [settle]. rewrite Hexists, Heach, Promise_all_resolved.
  cbn [settle]. rewrite Hred.
  split; [reflexivity |]. split; [exact Htr |]. split; [exact Hpg |].
  rewrite Hor. apply selected_at, Hlen.
Qed.

(** C8.  When the checkable locator resolves to a non-empty list and the
    driver reports the selected state of each matched element,
    [seeCheckboxIsChecked] asks the driver for the state of every match, in
    order, and succeeds exactly when the driver reported at least one of
    the matched elements as selected: the states of all matches are
    combined by "or". *)
Theorem seeCheckboxIsChecked_or field s s1 els values pg2 :
  findCheckable collab drv Browser field s = (s1, Resolved els) ->
  els <> [] ->
  selected_states drv els (page s1) values pg2 ->
  trace (fst (seeCheckboxIsChecked collab drv field s))
  = trace s1 ++ selected_events els values
  /\ page (fst (seeCheckboxIsChecked collab drv field s)) = pg2
  /\ (snd (seeCheckboxIsChecked collab drv field s) = Resolved tt
      <-> exists i el, els !! i = Some el /\ values !! i = Some true).
Proof.
  intros Hfind Hne Hsel.
  destruct (proceedIsChecked_run assert field s s1 els values pg2
              Hfind Hne Hsel) as (s2 & selected & Hrun & Htr & Hpg & Hiff).
  unfold seeCheckboxIsChecked, await_call, call, async, bind, await, lift.
  rewrite Hrun. rewrite <- Hiff.
  destruct selected; simpl; repeat split; auto; discriminate.
Qed.

(** ** Filling fields *)

(** C10.  When the field locator resolves to no element, [fillField]
    fails on reading a property of the missing first element, with a
    [TypeError] that is no [ElementNotFound] error, whereas [appendField]
    and [clearField] raise [ElementNotFound] for the locator with the
    prefix "Field". *)
Theorem fillField_has_no_existence_check field value s s1 :
  findFields collab drv Browser field s = (s1, Resolved []) ->
  fillField collab drv field value s
  = (s1, Rejected (TypeError "Cannot read property 'clear' of undefined"))
  /\ (forall prefix postfix,
        TypeError "Cannot read property 'clear' of undefined"
        <> ElementNotFound collab field prefix postfix)
  /\ appendField collab drv field value s
     = (s1, Rejected (ElementNotFound collab field (Some "Field") None))
  /\ clearField collab drv field s
     = (s1, Rejected (ElementNotFound collab field (Some "Field") None)).
Proof.
  intros Hfind.
  unfold fillField, appendField, clearField, await_call, call.
  unfold async, bind, await, lift. rewrite Hfind. simpl.
  repeat split. intros prefix postfix. discriminate.
Qed.
End Properties.

(** * The properties on the sample page *)

Local Open Scope list_scope.

(** [_locate({foo: 'bar'}, true)] with SmartWait at 5000: [guessLocator]
    throws inside the query function, and the session is left with the
    implicit wait still at 5000. *)
Lemma smartWait_skips_reset_witness :
  options_smartWait form_session <> 0%Z
  /\ locate_fn (LObject "foo" "bar")
       (fst (implicitlyWait (options_smartWait form_session) form_session))
     = (fst (implicitlyWait 5000 form_session),
        Throw (TypeError "global.by[l.type] is not a function"))
  /\ implicitWait (fst (_smartWait (locate_fn (LObject "foo" "bar")) true
                          form_session)) = 5000%Z.
Proof.
  assert (H1 : options_smartWait form_session <> 0%Z) by discriminate.
  assert (H2 : locate_fn (LObject "foo" "bar")
                 (fst (implicitlyWait (options_smartWait form_session)
                         form_session))
               = (fst (implicitlyWait 5000 form_session),
                  Throw (TypeError "global.by[l.type] is not a function")))
    by reflexivity.
  split; [exact H1 | split; [exact H2 |]].
  destruct (smartWait_skips_reset_when_fn_throws _ _ _ _ H1 H2) as (_ & -> & _).
  reflexivity.
Defined.

(** The same through the entry point. *)
Lemma locate_unknown_strategy_leaves_wait_set :
  implicitWait (fst (_locate sample_collab sample_driver
                       (LObject "foo" "bar") true form_session)) = 5000%Z
  /\ trace (fst (_locate sample_collab sample_driver
                   (LObject "foo" "bar") true form_session))
     = [EvImplicitlyWait 5000].
Proof. split; reflexivity. Qed.

(** With a query function that returns, the wait is reset. *)
Lemma locate_known_strategy_resets_wait :
  implicitWait (fst (_locate sample_collab sample_driver
                       (LObject "name" "agree") true form_session)) = 0%Z
  /\ snd (_locate sample_collab sample_driver
            (LObject "name" "agree") true form_session) = Resolved [3; 4].
Proof. split; reflexivity. Qed.

Lemma withinBegin_withinEnd_restores_witness :
  reachable sample_collab sample_driver form_session
  /\ withinStore form_session = ∅
  /\ snd (_withinBegin sample_collab sample_driver (LString "#login")
            form_session) = Normal (Resolved 9)
  /\ exists s2,
      _withinEnd (fst (_withinBegin sample_collab sample_driver
                         (LString "#login") form_session))
      = (s2, Normal tt)
      /\ browser_findElement s2 = Fn Document
      /\ browser_findElements s2 = Fn Document
      /\ context s2 = LString "body"
      /\ withinStore s2 = ∅.
Proof.
  assert (H1 : reachable sample_collab sample_driver form_session)
    by apply reach_started.
  assert (H2 : withinStore form_session = ∅) by reflexivity.
  assert (H3 : _withinBegin sample_collab sample_driver (LString "#login")
                 form_session
               = (fst (_withinBegin sample_collab sample_driver
                         (LString "#login") form_session),
                  Normal (Resolved 9)))
    by reflexivity.
  split; [exact H1 | split; [exact H2 | split; [reflexivity |]]].
  exact (withinBegin_withinEnd_restores sample_collab sample_driver
           (LString "#login") form_session _ 9 H1 H2 H3).
Defined.

Lemma failed_releases_scope_witness :
  withinStore stuck_scope <> ∅
  /\ browser_findElement
       (fst (_failed sample_collab sample_driver failed_test stuck_scope))
     = Fn Document
  /\ browser_findElements
       (fst (_failed sample_collab sample_driver failed_test stuck_scope))
     = Fn Document
  /\ withinStore
       (fst (_failed sample_collab sample_driver failed_test stuck_scope)) = ∅
  /\ context
       (fst (_failed sample_collab sample_driver failed_test stuck_scope))
     = LString "body".
Proof.
  assert (H : withinStore stuck_scope <> ∅).
  { change (withinStore stuck_scope)
      with (<["elsFn" := Fn Document]>
              (<["elFn" := Fn Document]> (∅ : gmap string JsVal))).
    apply insert_non_empty. }
  split; [exact H |].
  exact (failed_releases_scope sample_collab sample_driver failed_test
           stuck_scope H).
Defined.

(** C4, counterexample.  On the login form the field chain resolves the
    fuzzy locator "Password" to input 7 through its label query, while
    [_locate] sends the single value [false] and no query of any chain. *)
Lemma locate_fuzzy_runs_no_chain :
  Locator.isFuzzy (Locator.new (LString "Password")) = true
  /\ snd (findFields sample_collab sample_driver Browser (LString "Password")
            form_session) = Resolved [7]
  /\ queries (trace (fst (_locate sample_collab sample_driver
                            (LString "Password") false form_session)))
     = [EvFindElements Document QFalse (Throw (TypeError "Invalid locator"))]
  /\ ~ (exists q res,
          q ∈ field_chain sample_collab (LString "Password")
              ++ checkable_chain sample_collab (LString "Password")
              ++ clickable_chain sample_collab (LString "Password")
          /\ EvFindElements Document q res
             ∈ trace (fst (_locate sample_collab sample_driver
                             (LString "Password") false form_session))).
Proof.
  repeat split.
  intros (q & res & Hq & Hev).
  change (trace (fst (_locate sample_collab sample_driver
                        (LString "Password") false form_session)))
    with [EvFindElements Document QFalse (Throw (TypeError "Invalid locator"))]
    in Hev.
  apply list_elem_of_singleton in Hev. injection Hev as -> _.
  apply list_elem_of_In in Hq. simpl in Hq.
  repeat (destruct Hq as [Hq | Hq]; [discriminate |]). exact Hq.
Qed.

Lemma locate_fuzzy_single_call_witness :
  Locator.isFuzzy (Locator.new (LString "Password")) = true
  /\ browser_findElements form_session = Fn Document
  /\ exists q res pre post,
      trace (fst (_locate sample_collab sample_driver (LString "Password")
                    true form_session))
      = trace form_session ++ pre ++ EvFindElements Document q res :: post
      /\ Forall is_timeout pre
      /\ Forall is_timeout post
      /\ snd (_locate sample_collab sample_driver (LString "Password") true
                form_session) = promise_of (awaited res).
Proof.
  assert (H1 : Locator.isFuzzy (Locator.new (LString "Password")) = true)
    by reflexivity.
  assert (H2 : browser_findElements form_session = Fn Document)
    by reflexivity.
  split; [exact H1 | split; [exact H2 |]].
  exact (locate_fuzzy_single_call sample_collab sample_driver
           (LString "Password") true form_session Document H1 H2).
Defined.

(** C5, counterexample.  Entering a scope on an element that does not exist
    rejects with the driver's [NoSuchElementError], which is not an
    [ElementNotFound] error, whatever its prefix and suffix. *)
Lemma withinBegin_missing_element_raw_error :
  snd (_withinBegin sample_collab sample_driver (LString "#nonexistent")
         empty_session) = Normal (Rejected no_such_element)
  /\ forall prefix postfix,
      no_such_element
      <> ElementNotFound sample_collab (LString "#nonexistent") prefix postfix.
Proof. split; [reflexivity | intros prefix postfix; discriminate]. Qed.

Lemma withinBegin_propagates_driver_error_witness :
  browser_findElement empty_session = Fn Document
  /\ guessed_or_css sample_collab (LString "#nonexistent")
     = Normal (QBy (mkBy "css" (LString "#nonexistent")))
  /\ d_findElement sample_driver (implicitWait empty_session) Document
       (QBy (mkBy "css" (LString "#nonexistent"))) (page empty_session)
     = (empty_page, Normal (Rejected no_such_element))
  /\ snd (_withinBegin sample_collab sample_driver (LString "#nonexistent")
            empty_session) = Normal (Rejected no_such_element)
  /\ context (fst (_withinBegin sample_collab sample_driver
                     (LString "#nonexistent") empty_session))
     = LString "#nonexistent".
Proof.
  assert (H1 : browser_findElement empty_session = Fn Document)
    by reflexivity.
  assert (H2 : guessed_or_css sample_collab (LString "#nonexistent")
               = Normal (QBy (mkBy "css" (LString "#nonexistent"))))
    by reflexivity.
  assert (H3 : d_findElement sample_driver (implicitWait empty_session)
                 Document (QBy (mkBy "css" (LString "#nonexistent")))
                 (page empty_session)
               = (empty_page, Normal (Rejected no_such_element)))
    by reflexivity.
  split; [exact H1 | split; [exact H2 | split; [exact H3 |]]].
  destruct (withinBegin_propagates_driver_error sample_collab sample_driver
              (LString "#nonexistent") empty_session _ _ _ _ H1 H2 H3)
    as (Hres & _ & Hctx & _).
  split; [exact Hres | exact Hctx].
Defined.


(** On the login form the name query is the third one issued for "pwd",
    and the CSS fallback is never sent. *)
Lemma findFields_stops_at_first_match :
  trace (fst (findFields sample_collab sample_driver Browser (LString "pwd")
                form_session))
  = [ no_match Document (QBy (by_xpath "labelEquals:'pwd'"));
      no_match Document (QBy (by_xpath "labelContains:'pwd'"));
      EvFindElements Document (QBy (by_xpath "fieldByName:'pwd'"))
        (Normal (Resolved [7])) ]
  /\ snd (findFields sample_collab sample_driver Browser (LString "pwd")
            form_session) = Resolved [7].
Proof. split; reflexivity. Qed.



(** The runs behind it: the second field strategy, the first checkable
    strategy and the second clickable strategy are the ones that match. *)
Lemma chains_on_the_terms_page :
  trace (fst (findFields sample_collab sample_driver Browser (LString "Terms")
                terms_session))
  = [ no_match Document (QBy (by_xpath "labelEquals:'Terms'"));
      EvFindElements Document (QBy (by_xpath "labelContains:'Terms'"))
        (Normal (Resolved [5; 6])) ]
  /\ trace (fst (findCheckable sample_collab sample_driver Browser
                   (LString "Terms") terms_session))
     = [ EvFindElements Document (QBy (by_xpath "checkableByText:'Terms'"))
           (Normal (Resolved [3; 4])) ]
  /\ trace (fst (findClickable sample_collab sample_driver Browser
                   (LString "Terms") terms_session))
     = [ no_match Document (QBy (by_xpath "narrow:'Terms'"));
         EvFindElements Document (QBy (by_xpath "wide:'Terms'"))
           (Normal (Resolved [1; 2])) ].
Proof. repeat split. Qed.

(** On the login form "agree" names checkbox 3, which the driver reports
    as not selected, and checkbox 4, which it reports as selected. *)
Lemma seeCheckboxIsChecked_or_witness :
  findCheckable sample_collab sample_driver Browser (LString "agree")
    form_session
  = (fst (findCheckable sample_collab sample_driver Browser (LString "agree")
            form_session), Resolved [3; 4])
  /\ [3; 4] <> ([] : list Element)
  /\ selected_states sample_driver [3; 4] form_page [false; true] form_page
  /\ trace (fst (seeCheckboxIsChecked sample_collab sample_driver
                   (LString "agree") form_session))
     = trace (fst (findCheckable sample_collab sample_driver Browser
                     (LString "agree") form_session))
         ++ [ EvIsSelected 3 (Normal (Resolved false));
              EvIsSelected 4 (Normal (Resolved true)) ]
  /\ snd (seeCheckboxIsChecked sample_collab sample_driver (LString "agree")
            form_session) = Resolved tt.
Proof.
  set (s1 := fst (findCheckable sample_collab sample_driver Browser
                    (LString "agree") form_session)).
  assert (H1 : findCheckable sample_collab sample_driver Browser
                 (LString "agree") form_session = (s1, Resolved [3; 4]))
    by reflexivity.
  assert (H2 : [3; 4] <> ([] : list Element)) by discriminate.
  assert (H3 : selected_states sample_driver [3; 4] form_page [false; true]
                 form_page).
  { simpl. exists form_page. split; [reflexivity |].
    exists form_page. split; reflexivity. }
  split; [exact H1 | split; [exact H2 | split; [exact H3 |]]].
  destruct (seeCheckboxIsChecked_or sample_collab sample_driver
              (LString "agree") form_session s1 [3; 4] [false; true]
              form_page H1 H2 H3) as (Htr & _ & Hiff).
  split; [exact Htr |].
  apply Hiff. exists 1%nat, 4%nat. split; reflexivity.
Defined.

(** With both checkboxes unchecked the assertion fails. *)
Lemma seeCheckboxIsChecked_none_selected :
  let page :=
    {| sp_match := sp_match form_page; sp_selected := fun _ => false |} in
  snd (seeCheckboxIsChecked sample_collab sample_driver (LString "agree")
         (started 0 false false page))
  = Rejected (AssertionFailedError "expected checkable agree to be checked").
Proof. reflexivity. Qed.

(** C9, counterexample.  [{foo: 'bar'}] is a non-fuzzy locator, but the
    [By] namespace has no member [foo]: [_locate] sends no query at all and
    its promise rejects with a [TypeError]. *)
Lemma locate_unknown_strategy_throws :
  Locator.isFuzzy (Locator.new (LObject "foo" "bar")) = false
  /\ Locator.type (Locator.new (LObject "foo" "bar")) = Some "foo"
  /\ queries (trace (fst (_locate sample_collab sample_driver
                            (LObject "foo" "bar") false form_session))) = []
  /\ snd (_locate sample_collab sample_driver (LObject "foo" "bar") false
            form_session)
     = Rejected (TypeError "global.by[l.type] is not a function").
Proof. repeat split. Qed.

Lemma locate_strict_single_query_witness :
  Locator.isFuzzy (Locator.new (LString "#nonexistent")) = false
  /\ Locator.type (Locator.new (LString "#nonexistent")) = Some "css"
  /\ truthy "css" = true
  /\ by_has sample_collab "css" = true
  /\ browser_findElements form_session = Fn Document
  /\ queries (trace (fst (_locate sample_collab sample_driver
                            (LString "#nonexistent") true form_session)))
     = [EvFindElements Document (QBy (mkBy "css" (LString "#nonexistent")))
          (Normal (Resolved []))]
  /\ snd (_locate sample_collab sample_driver (LString "#nonexistent") true
            form_session) = Resolved [].
Proof.
  assert (H1 : Locator.isFuzzy (Locator.new (LString "#nonexistent")) = false)
    by reflexivity.
  assert (H2 : Locator.type (Locator.new (LString "#nonexistent"))
               = Some "css") by reflexivity.
  assert (H3 : truthy "css" = true) by reflexivity.
  assert (H4 : by_has sample_collab "css" = true) by reflexivity.
  assert (H5 : browser_findElements form_session = Fn Document)
    by reflexivity.
  repeat (split; [assumption |]).
  destruct (locate_strict_single_query sample_collab sample_driver
              (LString "#nonexistent") true form_session Document "css"
              H1 H2 H3 H4 H5) as (w & pg & res & Hd & Htr & Hres & _).
  assert (E : res = Normal (Resolved [])).
  { simpl in Hd. injection Hd as _ <-. reflexivity. }
  subst res. split; [exact Htr | exact Hres].
Defined.

Lemma fillField_has_no_existence_check_witness :
  findFields sample_collab sample_driver Browser (LString "nothing")
    empty_session
  = (fst (findFields sample_collab sample_driver Browser (LString "nothing")
            empty_session), Resolved [])
  /\ snd (fillField sample_collab sample_driver (LString "nothing") "secret"
            empty_session)
     = Rejected (TypeError "Cannot read property 'clear' of undefined")
  /\ snd (appendField sample_collab sample_driver (LString "nothing") "secret"
            empty_session)
     = Rejected (Error "Field nothing was not found by text|CSS|XPath").
Proof.
  assert (H : findFields sample_collab sample_driver Browser
                (LString "nothing") empty_session
              = (fst (findFields sample_collab sample_driver Browser
                        (LString "nothing") empty_session), Resolved []))
    by reflexivity.
  split; [exact H |].
  destruct (fillField_has_no_existence_check sample_collab sample_driver
              (LString "nothing") "secret" empty_session _ H)
    as (Hfill & _ & Happend & _).
  rewrite Hfill, Happend. split; reflexivity.
Defined.

(** * Further properties *)

Section MoreProperties.
Context {Page : Type}.
Variable collab : Collaborators.
Variable drv : Driver Page.
Variable trim : string -> string.

Abbreviation St := (State Page).

Local Open Scope list_scope.
Local Arguments findElement : simpl never.
Local Arguments findElements : simpl never.

(** ** Leaving and nesting scopes *)

(** X1.  [_withinEnd] with nothing stored (no scope was entered, or the
    scope was already left) overwrites both find properties with
    [undefined]: from then on every lookup through the browser throws a
    [TypeError] before anything is sent to the driver, and so does the
    field chain. *)
Theorem withinEnd_without_scope_disables_lookups (s : St) :
  withinStore s = ∅ ->
  let s' := fst (_withinEnd s) in
  browser_findElement s' = Undefined
  /\ browser_findElements s' = Undefined
  /\ (forall q,
        findElement drv Browser q s'
        = (s', Throw (TypeError "this.browser.findElement is not a function")))
  /\ (forall q,
        findElements drv Browser q s'
        = (s', Throw (TypeError "this.browser.findElements is not a function")))
  /\ (forall field,
        Locator.isFuzzy (Locator.new field) = true ->
        findFields collab drv Browser field s'
        = (s', Rejected
                 (TypeError "this.browser.findElements is not a function"))).
Proof.
  intros Hemp s'. subst s'. rewrite withinEnd_run. simpl.
  rewrite Hemp. unfold stored. rewrite !lookup_empty. simpl.
  repeat split.
  intros field Hf. unfold findFields.
  rewrite (guessLocator_fuzzy _ _ Hf). reflexivity.
Qed.

(** The one command [_withinBegin] sends. *)
Lemma withinBegin_trace locator (s s1 : St) p r :
  browser_findElement s = Fn r ->
  _withinBegin collab drv locator s = (s1, Normal p) ->
  exists q, trace s1 = trace s ++ [EvFindElement r q (Normal p)].
Proof.
  intros Hb. unfold _withinBegin, findElement, bind, gets, modify, lift, ret.
  simpl. destruct (guessed_or_css collab locator) as [q | e]; simpl;
    [| discriminate].
  rewrite Hb. simpl. unfold issue_findElement. simpl.
  destruct (d_findElement drv _ r q _) as [pg [[el | e] | e]]; simpl;
    intros [= <- <-]; exists q; reflexivity.
Qed.

(** X2.  Scopes do not nest.  A second [_withinBegin] inside a scope saves
    the scoped find functions over the saved root-level ones (and searches
    inside the first scope); one [_withinEnd] then leaves the browser bound
    to the first scope's element although the store is empty and the search
    root is reset, and a second [_withinEnd] leaves both find properties
    [undefined]. *)
Theorem nested_within_loses_root_functions l1 l2 (s s1 s2 : St) a b :
  _withinBegin collab drv l1 s = (s1, Normal (Resolved a)) ->
  _withinBegin collab drv l2 s1 = (s2, Normal (Resolved b)) ->
  let s3 := fst (_withinEnd s2) in
  (exists q, trace s2 = trace s1 ++ [EvFindElement (Within a) q
                                       (Normal (Resolved b))])
  /\ browser_findElement s3 = Fn (Within a)
  /\ browser_findElements s3 = Fn (Within a)
  /\ withinStore s3 = ∅
  /\ context s3 = options_rootElement s
  /\ browser_findElement (fst (_withinEnd s3)) = Undefined
  /\ browser_findElements (fst (_withinEnd s3)) = Undefined.
Proof.
  intros H1 H2 s3. subst s3.
  destruct (withinBegin_found collab drv l1 s s1 a H1)
    as (_ & _ & Hroot1 & Hf1 & Hfs1).
  destruct (withinBegin_found collab drv l2 s1 s2 b H2)
    as (Hst2 & _ & Hroot2 & _ & _).
  destruct (stored_entered l2 s1) as [E1 E2].
  split; [exact (withinBegin_trace l2 s1 s2 _ _ Hf1 H2) |].
  rewrite !withinEnd_run. simpl.
  rewrite Hst2, E1, E2, Hf1, Hfs1, Hroot2, Hroot1.
  unfold stored. rewrite !lookup_empty. repeat split.
Qed.

(** ** Locators the guesser recognises *)

(** X4.  For a locator that [guessLocator] turns into a [By], [findFields]
    and [findCheckable] do the same thing: one [findElements] with that
    [By] on the client's root, whose answer is the result as it is.  No
    chain is run, also not when the answer is empty. *)
Theorem strict_locator_single_query client locator (s : St) r b :
  guessLocator collab locator = Normal (Some b) ->
  client_root client s = Some r ->
  exists pg res,
    d_findElements drv (implicitWait s) r (QBy b) (page s) = (pg, res)
    /\ findFields collab drv client locator s
       = (record pg (EvFindElements r (QBy b) res) s, promise_of (awaited res))
    /\ findCheckable collab drv client locator s
       = (record pg (EvFindElements r (QBy b) res) s, promise_of (awaited res)).
Proof.
  intros Hg Hr.
  destruct (issue_findElements_spec drv r (QBy b) s) as (pg & res & Hd & Hrun).
  exists pg, res. split; [exact Hd |].
  unfold findFields, findCheckable, async, bind, lift, await.
  rewrite Hg, (findElements_root drv _ _ _ _ Hr), Hrun.
  destruct res as [[els | e] | e]; split; reflexivity.
Qed.

(** X5.  [findClickable] guesses from the locator's value alone: the key
    of a structured locator is never used.  When the value is a plain
    string the guess is [false], and [findElement] is called once with
    [false] on the current root: alone, under the timeout in force, when no
    SmartWait is configured; otherwise under the configured timeout, which
    was set just before and is set back to 0 just after when [findElement]
    returns, and is left in force when it throws.  The outcome of that one
    call is the result. *)
Theorem findClickable_ignores_locator_key k v (s : St) r :
  Locator.isFuzzy (Locator.new (LString v)) = true ->
  browser_findElement s = Fn r ->
  (forall k',
      findClickable collab drv Browser (LObject k' v) s
      = findClickable collab drv Browser (LObject k v) s)
  /\ exists pg res,
      d_findElement drv
        (if (options_smartWait s =? 0)%Z then implicitWait s
         else options_smartWait s) r QFalse (page s) = (pg, res)
      /\ trace (fst (findClickable collab drv Browser (LObject k v) s))
         = trace s
             ++ (if (options_smartWait s =? 0)%Z
                 then [EvFindElement r QFalse res]
                 else EvImplicitlyWait (options_smartWait s)
                      :: EvFindElement r QFalse res
                      :: match res with
                         | Normal _ => [EvImplicitlyWait 0]
                         | Throw _ => []
                         end)
      /\ snd (findClickable collab drv Browser (LObject k v) s)
         = promise_of (awaited res).
Proof.
  intros Hf Hb. split; [reflexivity |].
  unfold findClickable. simpl Locator.new. simpl Locator.isFuzzy.
  simpl Locator.value. cbv iota. simpl negb. cbv iota.
  unfold guessed. rewrite (guessLocator_fuzzy _ _ Hf).
  unfold await_call, call, _smartWait, async, findElement, bind, gets, lift,
    await. simpl.
  destruct (options_smartWait s =? 0)%Z; simpl; rewrite Hb; simpl;
    unfold issue_findElement; simpl;
    match goal with
    | |- context [d_findElement drv ?w r QFalse (page s)] =>
        destruct (d_findElement drv w r QFalse (page s))
          as [pg [[el | e] | e]]
    end; simpl; eexists; eexists; (split; [reflexivity |]);
    rewrite <- ?app_assoc; split; reflexivity.
Qed.

(** ** Searches inside a scope *)

Lemma findFields_unguessed client locator (s : St) :
  guessLocator collab locator = Normal None ->
  findFields collab drv client locator s
  = async (first_nonempty drv client (field_chain collab locator)) s.
Proof. intros Hg. unfold findFields. rewrite Hg. reflexivity. Qed.

Lemma findCheckable_unguessed client locator (s : St) :
  guessLocator collab locator = Normal None ->
  findCheckable collab drv client locator s
  = async (first_nonempty drv client (checkable_chain collab locator)) s.
Proof. intros Hg. unfold findCheckable. rewrite Hg. reflexivity. Qed.

Lemma chain_queries_on_root client chain (s : St) r :
  chain <> [] ->
  client_root client s = Some r ->
  exists tr,
    trace (fst (async (first_nonempty drv client chain) s)) = trace s ++ tr
    /\ Forall (on_root r) tr.
Proof.
  intros Hne Hr. rewrite async_fst.
  destruct (first_nonempty_trace drv client chain Hne s r Hr)
    as (n & q & res & _ & Htr & _).
  eexists. split; [exact Htr |].
  apply Forall_app. split.
  - apply Forall_forall. intros ev Hev.
    apply list_elem_of_fmap in Hev as (q' & -> & _).
    unfold on_root, no_match. eauto.
  - repeat constructor. unfold on_root. eauto.
Qed.

(** Whatever the locator, the field chain and the checkable chain only send
    [findElements] queries, and all of them to the client's root. *)
Lemma finders_query_the_root client locator (s : St) r :
  client_root client s = Some r ->
  (exists tr,
      trace (fst (findFields collab drv client locator s)) = trace s ++ tr
      /\ Forall (on_root r) tr)
  /\ (exists tr,
        trace (fst (findCheckable collab drv client locator s)) = trace s ++ tr
        /\ Forall (on_root r) tr).
Proof.
  intros Hr. destruct (guessLocator collab locator) as [[b |] | e] eqn:Hg.
  - destruct (issue_findElements_spec drv r (QBy b) s)
      as (pg & res & _ & Hrun).
    unfold findFields, findCheckable, async, bind, lift, await.
    rewrite Hg, (findElements_root drv _ _ _ _ Hr), Hrun.
    destruct res as [[els | e] | e]; simpl;
      (split; eexists; (split; [reflexivity |]);
       repeat constructor; unfold on_root; eauto).
  - rewrite (findFields_unguessed _ _ _ Hg), (findCheckable_unguessed _ _ _ Hg).
    split; apply chain_queries_on_root; try exact Hr; discriminate.
  - unfold findFields, findCheckable, async, bind, lift. rewrite Hg. simpl.
    split; exists []; rewrite app_nil_r; split; constructor.
Qed.

(** X3.  Once [_withinBegin] has found its element, the helper's field and
    checkable lookups through the browser search inside that element:
    every query they send, whatever the locator, goes to the scope's
    element and none to the document. *)
Theorem scoped_lookups_query_the_scope locator (s s1 : St) el :
  _withinBegin collab drv locator s = (s1, Normal (Resolved el)) ->
  forall field,
    (exists tr,
        trace (fst (findFields collab drv Browser field s1)) = trace s1 ++ tr
        /\ Forall (on_root (Within el)) tr)
    /\ (exists tr,
          trace (fst (findCheckable collab drv Browser field s1))
          = trace s1 ++ tr
          /\ Forall (on_root (Within el)) tr).
Proof.
  intros Hbegin field.
  destruct (withinBegin_found collab drv locator s s1 el Hbegin)
    as (_ & _ & _ & _ & Hfs).
  apply finders_query_the_root. simpl. rewrite Hfs. reflexivity.
Qed.

(** ** Acting on fields *)

(** X6.  With at least one match, [fillField] clears the first matched
    element and, when that went through, types the value into the same
    element; the other matches receive nothing.  When the clear fails the
    keys are never sent and the failure is the result. *)
Theorem fillField_clears_then_types field value (s s1 : St) el rest :
  findFields collab drv Browser field s = (s1, Resolved (el :: rest)) ->
  exists pg1 res1,
    d_clear drv el (page s1) = (pg1, res1)
    /\ (awaited res1 = Normal tt ->
        exists pg2 res2,
          d_sendKeys drv el value pg1 = (pg2, res2)
          /\ trace (fst (fillField collab drv field value s))
             = trace s1 ++ [EvClear el res1; EvSendKeys el value res2]
          /\ snd (fillField collab drv field value s)
             = promise_of (awaited res2))
    /\ (forall e,
          awaited res1 = Throw e ->
          trace (fst (fillField collab drv field value s))
          = trace s1 ++ [EvClear el res1]
          /\ snd (fillField collab drv field value s) = Rejected e).
Proof.
  intros Hfind.
  destruct (d_clear drv el (page s1)) as [pg1 res1] eqn:Hclear.
  exists pg1, res1. split; [reflexivity |].
  unfold fillField, await_call, call, async, bind, await, lift, clear, sendKeys.
  rewrite Hfind. simpl. rewrite Hclear. simpl. split.
  - intros Hok.
    destruct (d_sendKeys drv el value pg1) as [pg2 res2] eqn:Hkeys.
    exists pg2, res2. split; [reflexivity |].
    destruct res1 as [[[] | e] | e]; try discriminate. simpl.
    rewrite ?Hkeys. simpl.
    destruct res2 as [[[] | e] | e]; simpl; rewrite <- app_assoc;
      split; reflexivity.
  - intros e He.
    destruct res1 as [[[] | e'] | e']; try discriminate;
      simpl in He; injection He as ->; split; reflexivity.
Qed.

(** X7.  With at least one match, [appendField] sends the keys to the first
    matched element without clearing it, and [clearField] clears the first
    matched element; each sends this one command and hands back its
    outcome. *)
Theorem appendField_clearField_use_first field value (s s1 : St) el rest :
  findFields collab drv Browser field s = (s1, Resolved (el :: rest)) ->
  (exists pg res,
      d_sendKeys drv el value (page s1) = (pg, res)
      /\ appendField collab drv field value s
         = (record pg (EvSendKeys el value res) s1, promise_of (awaited res)))
  /\ (exists pg res,
        d_clear drv el (page s1) = (pg, res)
        /\ clearField collab drv field s
           = (record pg (EvClear el res) s1, promise_of (awaited res))).
Proof.
  intros Hfind. split.
  - destruct (d_sendKeys drv el value (page s1)) as [pg res] eqn:Hd.
    exists pg, res. split; [reflexivity |].
    unfold appendField, await_call, call, async, bind, await, lift, sendKeys.
    rewrite Hfind. simpl. rewrite Hd.
    destruct res as [[[] | e] | e]; reflexivity.
  - destruct (d_clear drv el (page s1)) as [pg res] eqn:Hd.
    exists pg, res. split; [reflexivity |].
    unfold clearField, await_call, call, async, bind, await, lift, clear.
    rewrite Hfind. simpl. rewrite Hd.
    destruct res as [[[] | e] | e]; reflexivity.
Qed.

(** ** Checkboxes *)

(** X8.  When the checkable locator resolves to a non-empty list and the
    driver reports the selected state of each matched element,
    [dontSeeCheckboxIsChecked] asks the driver for the state of every
    match, in order, and succeeds exactly when the driver reported every
    matched element as not selected. *)
Theorem dontSeeCheckboxIsChecked_none field (s s1 : St) els values pg2 :
  findCheckable collab drv Browser field s = (s1, Resolved els) ->
  els <> [] ->
  selected_states drv els (page s1) values pg2 ->
  trace (fst (dontSeeCheckboxIsChecked collab drv field s))
  = trace s1 ++ selected_events els values
  /\ page (fst (dontSeeCheckboxIsChecked collab drv field s)) = pg2
  /\ (snd (dontSeeCheckboxIsChecked collab drv field s) = Resolved tt
      <-> forall i el, els !! i = Some el -> values !! i = Some false).
Proof.
  intros Hfind Hne Hsel.
  pose proof (selected_states_length drv _ _ _ _ Hsel) as Hlen.
  destruct (proceedIsChecked_run collab drv negate field s s1 els values pg2
              Hfind Hne Hsel) as (s2 & selected & Hrun & Htr & Hpg & Hiff).
  unfold dontSeeCheckboxIsChecked, await_call, call, async, bind, await, lift.
  rewrite Hrun.
  assert (Hnone :
    selected = false
    <-> forall i el, els !! i = Some el -> values !! i = Some false).
  { split.
    - intros Hfalse i el Hel.
      destruct (lookup_lt_is_Some_2 values i) as ([|] & Hv).
      + rewrite Hlen. apply (lookup_lt_Some _ _ _ Hel).
      + assert (selected = true) by (apply Hiff; eauto). congruence.
      + exact Hv.
    - intros Hall. destruct selected; [| reflexivity].
      destruct Hiff as [Hex _].
      destruct (Hex eq_refl) as (i & el & Hel & Hv).
      rewrite (Hall i el Hel) in Hv. discriminate. }
  rewrite <- Hnone.
  destruct selected; simpl; repeat split; auto; discriminate.
Qed.

(** X9.  When the checkable locator resolves to nothing, both checkbox
    assertions fail with [ElementNotFound] for the locator with the prefix
    "Option", before any selected state is read: the negative assertion
    does not pass on a checkbox that is not there. *)
Theorem checkbox_assertions_need_a_match field (s s1 : St) :
  findCheckable collab drv Browser field s = (s1, Resolved []) ->
  seeCheckboxIsChecked collab drv field s
  = (s1, Rejected (ElementNotFound collab field (Some "Option") None))
  /\ dontSeeCheckboxIsChecked collab drv field s
     = (s1, Rejected (ElementNotFound collab field (Some "Option") None)).
Proof.
  intros Hfind.
  unfold seeCheckboxIsChecked, dontSeeCheckboxIsChecked, proceedIsChecked,
    await_call, call, async, bind, await, lift.
  rewrite Hfind. split; reflexivity.
Qed.

(** X10.  Without a context, [checkOption] reads the selected state of the
    first matched element only; when it is selected nothing else is sent,
    and when it is not, that element is clicked once and the click's
    outcome is the result. *)
Theorem checkOption_clicks_unless_selected
    field (s s1 : St) el rest pg selected :
  findCheckable collab drv Browser field s = (s1, Resolved (el :: rest)) ->
  d_isSelected drv el (page s1) = (pg, Normal (Resolved selected)) ->
  let asked := record pg (EvIsSelected el (Normal (Resolved selected))) s1 in
  if selected then
    checkOption collab drv field None s = (asked, Resolved tt)
  else
    exists pg2 res,
      d_click drv el pg = (pg2, res)
      /\ checkOption collab drv field None s
         = (record pg2 (EvClick el res) asked, promise_of (awaited res)).
Proof.
  intros Hfind Hsel asked. subst asked.
  unfold checkOption, await_call, call, async, bind, await, lift, ret,
    isSelected, el_click. cbn -[findCheckable].
  rewrite Hfind. simpl. rewrite Hsel. simpl.
  destruct selected; simpl; [reflexivity |].
  destruct (d_click drv el pg) as [pg2 res] eqn:Hclick.
  exists pg2, res. split; [reflexivity |].
  destruct res as [[[] | e] | e]; reflexivity.
Qed.

(** X11.  When the checkable locator resolves to nothing, [checkOption]
    fails with [ElementNotFound] for the locator with the prefix "Checkbox
    or radio"; no selected state is read and nothing is clicked. *)
Theorem checkOption_needs_a_match field (s s1 : St) :
  findCheckable collab drv Browser field s = (s1, Resolved []) ->
  checkOption collab drv field None s
  = (s1, Rejected (ElementNotFound collab field
                     (Some "Checkbox or radio") None)).
Proof.
  intros Hfind.
  unfold checkOption, await_call, call, async, bind, await, lift, ret.
  cbn -[findCheckable]. rewrite Hfind. reflexivity.
Qed.

(** ** Selecting options *)

(** Clicking a list of elements: the clicks are sent in order, one per
    element, up to the first that throws. *)
Lemma click_each_run els : forall s : St,
  exists tr,
    trace (fst (click_each drv els s)) = trace s ++ tr
    /\ Forall2 click_of (take (length tr) els) tr
    /\ (forall ps,
          snd (click_each drv els s) = Normal ps -> length tr = length els).
Proof.
  induction els as [| el rest IH]; intros s; simpl.
  - exists []. rewrite app_nil_r. repeat split; constructor.
  - unfold bind, el_click, ret.
    destruct (d_click drv el (page s)) as [pg [p | e]].
    + destruct (IH (record pg (EvClick el (Normal p)) s))
        as (tr & Htr & Hall & Hlen).
      exists (EvClick el (Normal p) :: tr).
      destruct (click_each drv rest _) as [s2 [ps | e]]; simpl in *;
        (split; [rewrite Htr, <- app_assoc; reflexivity |]);
        (split; [constructor; [unfold click_of; eauto | exact Hall] |]).
      * intros ps' _. f_equal. exact (Hlen ps eq_refl).
      * intros ps' H. discriminate H.
    + exists [EvClick el (Throw e)]. simpl.
      repeat split; [| intros ps' H; discriminate H].
      repeat constructor. unfold click_of. eauto.
Qed.

(** X12.  For one option, when the select was found and the query by
    visible text (run inside the first matched select) matches something,
    [selectOption] sends no query by value: after the text query it only
    clicks, the matched options in order, and when it succeeds every one of
    them was clicked. *)
Theorem selectOption_prefers_visible_text
    select opt (s s1 : St) field rest pg o os :
  findFields collab drv Browser select s = (s1, Resolved (field :: rest)) ->
  d_findElements drv (implicitWait s1) (Within field)
    (QBy (by_xpath (byVisibleText trim opt))) (page s1)
  = (pg, Normal (Resolved (o :: os))) ->
  exists tr,
    trace (fst (selectOption collab drv trim select (OneOption opt) s))
    = trace s1
        ++ EvFindElements (Within field)
             (QBy (by_xpath (byVisibleText trim opt)))
             (Normal (Resolved (o :: os)))
        :: tr
    /\ Forall2 click_of (take (length tr) (o :: os)) tr
    /\ (forall done,
          snd (selectOption collab drv trim select (OneOption opt) s)
          = Resolved done ->
          length tr = length (o :: os)).
Proof.
  intros Hfind Htext.
  set (s2 := record pg (EvFindElements (Within field)
                          (QBy (by_xpath (byVisibleText trim opt)))
                          (Normal (Resolved (o :: os)))) s1).
  destruct (click_each_run (o :: os) s2) as (tr & Htr & Hall & Hlen).
  exists tr.
  assert (Hrun :
    selectOption collab drv trim select (OneOption opt) s
    = (fst (click_each drv (o :: os) s2),
       promise_of
         match snd (click_each drv (o :: os) s2) with
         | Normal ps => settle (Promise_all ps)
         | Throw e => Throw e
         end)).
  { unfold selectOption, await_call, call, async, bind, await, lift, ret.
    rewrite Hfind. cbn -[click_each findElements].
    unfold bind, await, lift, ret, findElements, issue_findElements.
    rewrite Htext. cbn -[click_each]. fold s2.
    destruct (click_each drv (o :: os) s2) as [s3 [ps | e]]; reflexivity. }
  rewrite Hrun. cbn [fst snd].
  split; [rewrite Htr; unfold s2; simpl; rewrite <- app_assoc; reflexivity |].
  split; [exact Hall |].
  intros done.
  destruct (snd (click_each drv (o :: os) s2)) as [ps | e] eqn:Hc;
    [intros _; exact (Hlen ps eq_refl) | intros H; discriminate H].
Qed.

(** X13.  For one option, when the select was found but neither the query
    by visible text nor the query by value matches an option,
    [selectOption] clicks nothing and still succeeds, with an empty
    result. *)
Theorem selectOption_without_match_succeeds
    select opt (s s1 : St) field rest pg1 pg2 :
  findFields collab drv Browser select s = (s1, Resolved (field :: rest)) ->
  d_findElements drv (implicitWait s1) (Within field)
    (QBy (by_xpath (byVisibleText trim opt))) (page s1)
  = (pg1, Normal (Resolved [])) ->
  d_findElements drv (implicitWait s1) (Within field)
    (QBy (by_xpath (byValue trim opt))) pg1
  = (pg2, Normal (Resolved [])) ->
  selectOption collab drv trim select (OneOption opt) s
  = (record pg2
       (no_match (Within field) (QBy (by_xpath (byValue trim opt))))
       (record pg1
          (no_match (Within field) (QBy (by_xpath (byVisibleText trim opt))))
          s1),
     Resolved []).
Proof.
  intros Hfind Htext Hvalue.
  unfold selectOption, await_call, call, async, bind, await, lift, ret.
  rewrite Hfind. cbn -[findElements].
  unfold bind, await, lift, ret, findElements, issue_findElements.
  rewrite Htext. cbn. rewrite Hvalue. reflexivity.
Qed.

(** X14.  When the select locator resolves to nothing, [selectOption] fails
    with [ElementNotFound] for the locator with the prefix "Selectable
    field", whatever the options; no option is looked up. *)
Theorem selectOption_needs_a_field select option (s s1 : St) :
  findFields collab drv Browser select s = (s1, Resolved []) ->
  selectOption collab drv trim select option s
  = (s1, Rejected (ElementNotFound collab select
                     (Some "Selectable field") None)).
Proof.
  intros Hfind.
  unfold selectOption, await_call, call, async, bind, await, lift, ret.
  rewrite Hfind. reflexivity.
Qed.

(** ** What a click sends *)

Abbreviation lookup := (fun ev : Event => is_lookup ev = true).
Abbreviation looks_up m := (emits (Page:=Page) lookup m).
Abbreviation looks_up_async f := (emits_async (Page:=Page) lookup f).

Lemma emits_nothing {A} (m : M St A) :
  (forall s, fst (m s) = s) -> looks_up m.
Proof.
  intros H s. exists []. rewrite H, app_nil_r. split; constructor.
Qed.

Lemma looks_up_bind {A B} (m : M St A) (k : A -> M St B) :
  looks_up m -> (forall a, looks_up (k a)) -> looks_up (bind m k).
Proof.
  intros Hm Hk s. unfold bind. destruct (Hm s) as (tr1 & Htr1 & Hall1).
  destruct (m s) as [s1 [a | e]]; simpl in *.
  - destruct (Hk a s1) as (tr2 & Htr2 & Hall2).
    exists (tr1 ++ tr2). rewrite Htr2, Htr1, app_assoc.
    split; [reflexivity | apply Forall_app; split; assumption].
  - exists tr1. split; assumption.
Qed.

Lemma looks_up_event {A} (m : M St A) :
  (forall s, exists ev,
      is_lookup ev = true /\ trace (fst (m s)) = trace s ++ [ev]) ->
  looks_up m.
Proof.
  intros H s. destruct (H s) as (ev & Hev & Htr).
  exists [ev]. split; [exact Htr | repeat constructor; exact Hev].
Qed.

Lemma looks_up_implicitlyWait ms : looks_up (implicitlyWait ms).
Proof.
  apply looks_up_event. intros s. exists (EvImplicitlyWait ms).
  split; reflexivity.
Qed.

Lemma looks_up_findElement client q : looks_up (findElement drv client q).
Proof.
  intros s. destruct (findElement_cases drv client q s)
    as [-> | (r & pg & res & ->)].
  - exists []. rewrite app_nil_r. split; constructor.
  - exists [EvFindElement r q res]. split; [reflexivity |].
    repeat constructor.
Qed.

Lemma looks_up_findElements client q : looks_up (findElements drv client q).
Proof.
  intros s. destruct (findElements_cases drv client q s)
    as [-> | (r & pg & res & ->)].
  - exists []. rewrite app_nil_r. split; constructor.
  - exists [EvFindElements r q res]. split; [reflexivity |].
    repeat constructor.
Qed.

Lemma looks_up_async_intro {A} (body : M St A) :
  looks_up body -> looks_up_async (async body).
Proof. intros H s. rewrite async_fst. apply H. Qed.

Lemma looks_up_await_call {A} (f : Async St A) :
  looks_up_async f -> looks_up (await_call f).
Proof.
  intros H s. unfold await_call, call, bind, await, lift.
  destruct (H s) as (tr & Htr & Hall).
  destruct (f s) as [s1 [a | e]]; exists tr; split; assumption.
Qed.

Ltac looks_up_tac :=
  repeat first
    [ apply emits_nothing; intros ?; reflexivity
    | apply looks_up_implicitlyWait
    | apply looks_up_findElement | apply looks_up_findElements
    | apply looks_up_await_call | apply looks_up_async_intro
    | apply looks_up_bind; [| intros ?]
    | match goal with
      | |- emits _ (match ?x with _ => _ end) => destruct x
      end ].

Lemma looks_up_smartWait {R} (fn : M St (Promise R)) enabled :
  looks_up fn -> looks_up_async (_smartWait fn enabled).
Proof.
  intros Hfn. unfold _smartWait. apply looks_up_async_intro.
  apply looks_up_bind; [looks_up_tac | intros sw].
  destruct (_ || _).
  - apply looks_up_bind; [exact Hfn | intros; looks_up_tac].
  - apply looks_up_bind; [looks_up_tac | intros _].
    apply looks_up_bind; [exact Hfn | intros res]. looks_up_tac.
Qed.

(** Resolving a clickable locator only looks things up. *)
Lemma looks_up_findClickable matcher locator :
  looks_up_async (findClickable collab drv matcher locator).
Proof.
  unfold findClickable. apply looks_up_async_intro.
  destruct (negb _).
  - apply looks_up_await_call, looks_up_smartWait. looks_up_tac.
  - looks_up_tac.
Qed.

(** X15.  [click] acts on at most one element: whatever the locator and
    the context, every command before its last one is a lookup (a query or
    a timeout change), and either it fails after lookups only, or its last
    command is the one click, whose outcome is the result. *)
Theorem click_clicks_once_at_the_end locator context (s : St) :
  exists tr,
    trace (fst (click collab drv locator context s)) = trace s ++ tr
    /\ ((Forall lookup tr
         /\ exists e, snd (click collab drv locator context s) = Rejected e)
        \/ exists tr' el res,
            tr = tr' ++ [EvClick el res]
            /\ Forall lookup tr'
            /\ snd (click collab drv locator context s)
               = promise_of (awaited res)).
Proof.
  unfold click. rewrite async_fst, async_snd.
  set (pick := match given context with Some _ => _ | None => _ end).
  assert (Hpick : looks_up pick).
  { unfold pick. destruct (given context).
    - apply looks_up_bind; [| intros el; looks_up_tac].
      apply looks_up_await_call, looks_up_smartWait. looks_up_tac.
    - looks_up_tac. }
  match goal with
  | |- context [fst (?body s)] => set (run := body s)
  end.
  assert (Hrun :
    run
    = match pick s with
      | (s0, Normal matcher) =>
          match await_call (findClickable collab drv matcher locator) s0 with
          | (s1, Normal el) =>
              let '(pg, res) := d_click drv el (page s1) in
              (record pg (EvClick el res) s1, awaited res)
          | (s1, Throw e) => (s1, Throw e)
          end
      | (s0, Throw e) => (s0, Throw e)
      end).
  { unfold run, bind. destruct (pick s) as [s0 [matcher | e]]; [| reflexivity].
    destruct (await_call (findClickable collab drv matcher locator) s0)
      as [s1 [el | e]]; [| reflexivity].
    unfold el_click, await, lift.
    destruct (d_click drv el (page s1)) as [pg [[[] | e] | e]]; reflexivity. }
  rewrite Hrun. clear Hrun run.
  destruct (Hpick s) as (tr1 & Htr1 & Hall1).
  destruct (pick s) as [s0 [matcher | e]]; simpl in Htr1.
  - destruct (looks_up_await_call _
                (looks_up_findClickable matcher locator) s0)
      as (tr2 & Htr2 & Hall2).
    destruct (await_call (findClickable collab drv matcher locator) s0)
      as [s1 [el | e]]; simpl in Htr2.
    + destruct (d_click drv el (page s1)) as [pg res].
      exists ((tr1 ++ tr2) ++ [EvClick el res]). simpl.
      rewrite Htr2, Htr1, !app_assoc. split; [reflexivity |].
      right. exists (tr1 ++ tr2), el, res.
      repeat split. apply Forall_app. split; assumption.
    + exists (tr1 ++ tr2). simpl. rewrite Htr2, Htr1, app_assoc.
      split; [reflexivity |]. left.
      split; [apply Forall_app; split; assumption | eauto].
  - exists tr1. simpl. split; [exact Htr1 |]. left. eauto.
Qed.

(** ** The failure hook, in full *)

(** The state in which the screenshot part of [_failed] starts. *)
Abbreviation released st :=
  (if Nat.eqb (size (withinStore st)) 0
   then st else fst (_withinEnd (Page:=Page) st)).

(** The file name depends on the state through one option only, and
    computing it leaves the state alone. *)
Lemma failed_fileName_const test (s s' : St) :
  options_uniqueScreenshotNames s' = options_uniqueScreenshotNames s ->
  failed_fileName collab test s' = (s', snd (failed_fileName collab test s)).
Proof.
  intros H. unfold failed_fileName, bind, gets, ret, throw. rewrite H.
  destruct (options_uniqueScreenshotNames s); [| reflexivity].
  destruct (uuid test) as [u |]; [destruct (truthy u) |];
    destruct (ctx_test test); reflexivity.
Qed.

(** [_failed], step by step. *)
Lemma failed_run test (s : St) :
  _failed collab drv test s
  = if options_disableScreenshots s then (released s, Normal (Resolved tt))
    else
      match snd (failed_fileName collab test s) with
      | Throw e => (released s, Throw e)
      | Normal fileName =>
          let '(pg, p) := d_screenshot drv fileName (page s) in
          let shot := record pg (EvSaveScreenshot fileName p) (released s) in
          (match p with
           | Rejected err =>
               if session_gone err then set_isRunning false shot else shot
           | Resolved _ => shot
           end,
           Normal (Resolved tt))
      end.
Proof.
  pose proof (failed_fileName_const test s) as Hname.
  set (name := snd (failed_fileName collab test s)) in *.
  unfold _failed, saveScreenshot, call, bind, gets, ret, modify.
  destruct (size (withinStore s) =? 0)%nat eqn:Hsz;
    cbn -[failed_fileName session_gone];
    (destruct (options_disableScreenshots s);
     cbn -[failed_fileName session_gone]; [reflexivity |]);
    match goal with
    | |- context [failed_fileName collab test ?s0] =>
        rewrite (Hname s0 eq_refl)
    end;
    (destruct name as [fileName | e]; cbn -[session_gone]; [| reflexivity]);
    (destruct (d_screenshot drv fileName (page s)) as [pg [[] | err]];
     cbn -[session_gone]; [reflexivity |]);
    destruct (session_gone err); reflexivity.
Qed.

(** X16.  [_failed] never hands back a rejected promise: every failure of
    the screenshot is swallowed by its [catch].  It returns a fulfilled
    promise, except in one case where it throws instead: screenshots are
    on, unique names are on, and the test has neither a usable [uuid] nor a
    [ctx.test] to take one from. *)
Theorem failed_outcome test (s : St) :
  let no_uuid :=
    match uuid test, ctx_test test with
    | Some u, None => negb (truthy u)
    | None, None => true
    | _, _ => false
    end in
  if negb (options_disableScreenshots s)
     && options_uniqueScreenshotNames s && no_uuid
  then exists message,
      snd (_failed collab drv test s) = Throw (TypeError message)
  else snd (_failed collab drv test s) = Normal (Resolved tt).
Proof.
  intros no_uuid. subst no_uuid. rewrite failed_run.
  destruct (options_disableScreenshots s); [reflexivity |]. simpl negb.
  unfold failed_fileName, bind, gets, ret, throw.
  destruct (options_uniqueScreenshotNames s); simpl;
    [| destruct (d_screenshot drv _ _) as [pg [[] | err]]; reflexivity].
  destruct (uuid test) as [u |]; [destruct (truthy u) |];
    destruct (ctx_test test); simpl; eauto;
    destruct (d_screenshot drv _ _) as [pg [[] | err]]; reflexivity.
Qed.

(** X17.  With screenshots on and a file name at hand, [_failed] takes one
    screenshot under that name and nothing else; the helper is marked as
    not running exactly when the screenshot failed with a [RuntimeError]
    that says the session was terminated or the window was closed, and
    keeps its flag otherwise. *)
Theorem failed_notices_lost_session test (s : St) fileName pg p :
  options_disableScreenshots s = false ->
  snd (failed_fileName collab test s) = Normal fileName ->
  d_screenshot drv fileName (page s) = (pg, p) ->
  let s' := fst (_failed collab drv test s) in
  trace s' = trace s ++ [EvSaveScreenshot fileName p]
  /\ isRunning s'
     = match p with
       | Rejected err => if session_gone err then false else isRunning s
       | Resolved _ => isRunning s
       end.
Proof.
  intros Hd Hname Hshot s'. subst s'.
  rewrite failed_run, Hd, Hname, Hshot.
  destruct (size (withinStore s) =? 0)%nat;
    (destruct p as [[] | err]; [| destruct (session_gone err)]);
    split; reflexivity.
Qed.

(** X18.  With screenshots disabled [_failed] sends nothing to the driver:
    the trace, the page, the implicit wait and the running flag are as
    before, and the promise is fulfilled; only the scope is released. *)
Theorem failed_without_screenshots test (s : St) :
  options_disableScreenshots s = true ->
  let s' := fst (_failed collab drv test s) in
  snd (_failed collab drv test s) = Normal (Resolved tt)
  /\ trace s' = trace s
  /\ page s' = page s
  /\ implicitWait s' = implicitWait s
  /\ isRunning s' = isRunning s.
Proof.
  intros Hd s'. subst s'. rewrite failed_run, Hd.
  destruct (size (withinStore s) =? 0)%nat; repeat split.
Qed.

(** ** Screenshot names *)

Lemma string_length_app (a b : string) :
  String.length (a +:+ b) = (String.length a + String.length b)%nat.
Proof. induction a as [| c a IH]; simpl; [reflexivity | rewrite IH; reflexivity]. Qed.

Lemma string_app_inv_tail (a b t : string) : a +:+ t = b +:+ t -> a = b.
Proof.
  revert b. induction a as [| c a IH]; intros [| d b] H; simpl in H.
  - reflexivity.
  - apply (f_equal String.length) in H.
    rewrite !string_length_app in H. simpl in H. lia.
  - apply (f_equal String.length) in H.
    rewrite !string_length_app in H. simpl in H. lia.
  - injection H as -> H. f_equal. exact (IH b H).
Qed.

(** X19.  With unique screenshot names on, two failed tests with the same
    title (and the same hook) but different [uuid]s get different file
    names. *)
Theorem unique_names_differ_by_uuid t1 t2 u1 u2 (s : St) :
  options_uniqueScreenshotNames s = true ->
  title t1 = title t2 ->
  ctx_test t1 = ctx_test t2 ->
  uuid t1 = Some u1 -> truthy u1 = true ->
  uuid t2 = Some u2 -> truthy u2 = true ->
  u1 <> u2 ->
  snd (failed_fileName collab t1 s) <> snd (failed_fileName collab t2 s).
Proof.
  intros Hu Ht Hc H1 T1 H2 T2 Hne.
  unfold failed_fileName, bind, gets, ret. rewrite Hu, H1, H2, T1, T2, Ht, Hc.
  simpl. intros [= H]. apply Hne.
  apply String.app_inj in H. apply String.app_inj in H.
  exact (string_app_inv_tail _ _ _ H).
Qed.

(** ** The find properties go in pairs *)

Lemma same_scope_in_sync (s s' : St) :
  same_scope s s' -> in_sync s -> in_sync s'.
Proof.
  unfold same_scope, in_sync. intros (_ & _ & Hf & Hfs & Hs) [H1 H2].
  rewrite Hf, Hfs, Hs. auto.
Qed.

Lemma withinEnd_in_sync (s : St) : in_sync s -> in_sync (fst (_withinEnd s)).
Proof.
  intros [_ H]. rewrite withinEnd_run. split; [exact H | reflexivity].
Qed.

Lemma step_in_sync (s s' : St) :
  step collab drv s s' -> in_sync s -> in_sync s'.
Proof.
  intros Hstep Hin. destruct Hstep.
  - destruct (withinBegin_state collab drv locator s) as (Hst & _ & _ & Hfind).
    destruct (stored_entered locator s) as [E1 E2].
    destruct Hin as [Hpair _].
    split.
    + destruct (snd (_withinBegin collab drv locator s)) as [[el | e] | e];
        destruct Hfind as [-> ->]; [reflexivity | exact Hpair | exact Hpair].
    + rewrite Hst, E1, E2. exact Hpair.
  - apply withinEnd_in_sync, Hin.
  - eapply same_scope_in_sync; [apply failed_scope |].
    destruct (size (withinStore s) =? 0)%nat;
      [exact Hin | apply withinEnd_in_sync, Hin].
  - eapply same_scope_in_sync; [apply keeps_locate | exact Hin].
  - eapply same_scope_in_sync; [apply keeps_click | exact Hin].
  - eapply same_scope_in_sync; [apply keeps_fillField | exact Hin].
  - eapply same_scope_in_sync; [apply keeps_appendField | exact Hin].
  - eapply same_scope_in_sync; [apply keeps_clearField | exact Hin].
  - eapply same_scope_in_sync; [| exact Hin].
    apply keeps_async_intro, keeps_await_call, keeps_proceedIsChecked.
  - eapply same_scope_in_sync; [| exact Hin].
    apply keeps_async_intro, keeps_await_call, keeps_proceedIsChecked.
Qed.

(** X20.  In every state a test can reach, [browser.findElement] and
    [browser.findElements] are bound to the same search root (or are both
    [undefined]), and so are the two saved slots: single and multiple
    lookups never search different parts of the page. *)
Theorem reachable_finders_in_sync (s : St) :
  reachable collab drv s ->
  browser_findElement s = browser_findElements s
  /\ stored "elFn" (withinStore s) = stored "elsFn" (withinStore s).
Proof.
  induction 1 as [sw ds us pg | s s' _ IH Hstep].
  - split; reflexivity.
  - exact (step_in_sync s s' Hstep IH).
Qed.

(** ** Timeouts around the locate entry point *)

(** X21.  With SmartWait configured and requested, when the driver accepts
    the query [_locate] sends exactly three commands: the timeout is set
    to the configured value, the query runs under that timeout, and the
    timeout is set back to 0; this holds as well when the query's promise
    is rejected, and that promise is the result. *)
Theorem locate_smartWait_bracket locator (s : St) r q pg p :
  guessed collab locator = Normal q ->
  browser_findElements s = Fn r ->
  options_smartWait s <> 0%Z ->
  d_findElements drv (options_smartWait s) r q (page s) = (pg, Normal p) ->
  let s' := fst (_locate collab drv locator true s) in
  trace s'
  = trace s ++ [ EvImplicitlyWait (options_smartWait s);
                 EvFindElements r q (Normal p);
                 EvImplicitlyWait 0 ]
  /\ implicitWait s' = 0%Z
  /\ page s' = pg
  /\ snd (_locate collab drv locator true s) = p.
Proof.
  intros Hq Hb Hsw Hd s'. subst s'. rewrite locate_is_smartWait.
  apply Z.eqb_neq in Hsw.
  unfold _smartWait, async, findElements, bind, gets, lift. rewrite Hq, Hsw.
  simpl. rewrite Hb. simpl. unfold issue_findElements. simpl. rewrite Hd.
  simpl. rewrite <- !app_assoc. repeat split. destruct p; reflexivity.
Qed.

(** X22.  Called without its second argument ([smartWait] is then false),
    [_locate] uses no SmartWait even when one is configured: it sends the
    query alone, under the timeout already in force, and changes no
    timeout. *)
Theorem locate_default_sets_no_timeout locator (s : St) r q pg res :
  guessed collab locator = Normal q ->
  browser_findElements s = Fn r ->
  d_findElements drv (implicitWait s) r q (page s) = (pg, res) ->
  _locate collab drv locator false s
  = (record pg (EvFindElements r q res) s, promise_of (awaited res)).
Proof.
  intros Hq Hb Hd. rewrite locate_is_smartWait.
  rewrite smartWait_off by (rewrite orb_true_r; reflexivity).
  unfold findElements, bind, gets, lift. rewrite Hq. simpl. rewrite Hb.
  simpl. unfold issue_findElements. rewrite Hd. reflexivity.
Qed.

(** ** The order of the clickable chain *)

(** X25.  For a fuzzy locator [findClickable] asks the narrow XPath first,
    the wide XPath only when the narrow one matched nothing, and the
    literal CSS selector (through [findElement]) only when both matched
    nothing; whatever else an XPath query answers ends the chain. *)
Theorem findClickable_fuzzy_order matcher locator (s : St) r :
  Locator.isFuzzy (Locator.new locator) = true ->
  client_root matcher s = Some r ->
  let value := Locator.value (Locator.new locator) in
  let literal := xpathLocator_literal collab (LString value) in
  let narrow := QBy (by_xpath (clickable_narrow collab literal)) in
  let wide := QBy (by_xpath (clickable_wide collab literal)) in
  let css := QBy (by_css (LString value)) in
  let after := trace (fst (findClickable collab drv matcher locator s)) in
  (exists res,
      res <> Normal (Resolved [])
      /\ after = trace s ++ [EvFindElements r narrow res])
  \/ (exists res,
        res <> Normal (Resolved [])
        /\ after = trace s ++ [no_match r narrow; EvFindElements r wide res])
  \/ after = trace s ++ [no_match r narrow; no_match r wide]
  \/ (exists r' res,
        after = trace s ++ [no_match r narrow; no_match r wide;
                            EvFindElement r' css res]).
Proof.
  intros Hf Hr value literal narrow wide css after. subst after.
  unfold findClickable. rewrite Hf. simpl negb. cbv iota.
  rewrite async_fst. fold value. fold literal. fold narrow wide css.
  unfold bind, await, lift, settle, ret.
  rewrite (findElements_root drv _ narrow _ _ Hr).
  destruct (issue_findElements_spec drv r narrow s) as (pg1 & res1 & _ & ->).
  destruct res1 as [[[| e1 rest1] | e] | e]; simpl;
    try (left; eexists; split; [| reflexivity]; discriminate).
  right.
  set (s1 := record pg1 (EvFindElements r narrow (Normal (Resolved []))) s).
  assert (Hr1 : client_root matcher s1 = Some r).
  { unfold s1. rewrite client_root_record. exact Hr. }
  rewrite (findElements_root drv _ wide _ _ Hr1).
  destruct (issue_findElements_spec drv r wide s1) as (pg2 & res2 & _ & ->).
  destruct res2 as [[[| e2 rest2] | e] | e]; simpl;
    try (left; eexists; split; [| rewrite <- app_assoc; reflexivity];
         discriminate).
  right.
  match goal with
  | |- context [findElement drv matcher css ?s2] =>
      destruct (findElement_cases drv matcher css s2)
        as [-> | (r3 & pg3 & res3 & ->)]
  end.
  - left. simpl. rewrite <- app_assoc. reflexivity.
  - right. exists r3, res3.
    destruct res3 as [[e3 | e] | e]; simpl; rewrite <- !app_assoc; reflexivity.
Qed.
End MoreProperties.

(** ** End of a test and of a run *)

Lemma quits_app (l1 l2 : list SessionCmd) :
  quits (l1 ++ l2) = (quits l1 + quits l2)%nat.
Proof. unfold quits. rewrite List.filter_app, length_app. reflexivity. Qed.

(** X23.  [_after] followed by [_finishTest] tells a running browser to
    quit exactly once, whatever the options, and leaves a session whose
    browser is not running exactly as it was. *)
Theorem after_then_finishTest_quits_once {Page} (x : Session Page) :
  if isRunning (helper x)
  then quits (queued (_finishTest (_after x))) = S (quits (queued x))
  else _finishTest (_after x) = x.
Proof.
  unfold _finishTest, _after, queue.
  destruct x as [h restart keepState keepCookies q]. simpl.
  destruct (isRunning h) eqn:Hrun.
  - destruct restart, keepState, keepCookies; cbn -[quits];
      rewrite ?Hrun; cbn -[quits]; rewrite ?quits_app; cbn; lia.
  - cbn. rewrite ?Hrun, ?andb_false_r. reflexivity.
Qed.

(** X24.  With [restart] on, [_after] marks the helper as not running when
    it quits the browser, so that calling it again changes nothing: the
    browser is not told to quit twice. *)
Theorem after_restart_is_idempotent {Page} (x : Session Page) :
  options_restart x = true ->
  isRunning (helper (_after x)) = false
  /\ _after (_after x) = _after x.
Proof.
  unfold _after, queue.
  destruct x as [h restart keepState keepCookies q]. simpl.
  intros ->. destruct (isRunning h) eqn:Hrun; simpl; rewrite ?Hrun; auto.
Qed.

(** * The further properties on the sample pages *)

Lemma withinEnd_without_scope_witness :
  withinStore form_session = ∅
  /\ browser_findElements (fst (_withinEnd form_session)) = Undefined
  /\ findFields sample_collab sample_driver Browser (LString "Password")
       (fst (_withinEnd form_session))
     = (fst (_withinEnd form_session),
        Rejected (TypeError "this.browser.findElements is not a function")).
Proof.
  assert (H : withinStore form_session = ∅) by reflexivity.
  split; [exact H |].
  destruct (withinEnd_without_scope_disables_lookups sample_collab
              sample_driver form_session H) as (_ & Hfs & _ & _ & Hfields).
  split; [exact Hfs |]. apply Hfields. reflexivity.
Defined.

Lemma nested_within_witness :
  snd (_withinBegin sample_collab sample_driver (LString "#login")
         form_session) = Normal (Resolved 9)
  /\ snd (_withinBegin sample_collab sample_driver (LObject "name" "agree")
            login_scope) = Normal (Resolved 3)
  /\ browser_findElement
       (fst (_withinEnd
               (fst (_withinBegin sample_collab sample_driver
                       (LObject "name" "agree") login_scope))))
     = Fn (Within 9).
Proof.
  assert (H1 : _withinBegin sample_collab sample_driver (LString "#login")
                 form_session = (login_scope, Normal (Resolved 9)))
    by reflexivity.
  assert (H2 : _withinBegin sample_collab sample_driver
                 (LObject "name" "agree") login_scope
               = (fst (_withinBegin sample_collab sample_driver
                         (LObject "name" "agree") login_scope),
                  Normal (Resolved 3)))
    by reflexivity.
  split; [reflexivity | split; [reflexivity |]].
  destruct (nested_within_loses_root_functions sample_collab sample_driver
              _ _ _ _ _ _ _ H1 H2) as (_ & Hf & _).
  exact Hf.
Defined.

Lemma scoped_lookups_witness :
  snd (_withinBegin sample_collab sample_driver (LString "#login")
         form_session) = Normal (Resolved 9)
  /\ exists tr,
      trace (fst (findFields sample_collab sample_driver Browser
                    (LString "Password") login_scope))
      = trace login_scope ++ tr
      /\ Forall (on_root (Within 9)) tr.
Proof.
  assert (H1 : _withinBegin sample_collab sample_driver (LString "#login")
                 form_session = (login_scope, Normal (Resolved 9)))
    by reflexivity.
  split; [reflexivity |].
  exact (proj1 (scoped_lookups_query_the_scope sample_collab sample_driver
                  _ _ _ _ H1 (LString "Password"))).
Defined.

Lemma strict_locator_single_query_witness :
  guessLocator sample_collab (LObject "name" "agree")
  = Normal (Some (mkBy "name" (LString "agree")))
  /\ client_root Browser form_session = Some Document
  /\ snd (findFields sample_collab sample_driver Browser
            (LObject "name" "agree") form_session) = Resolved [3; 4]
  /\ findCheckable sample_collab sample_driver Browser
       (LObject "name" "agree") form_session
     = findFields sample_collab sample_driver Browser
         (LObject "name" "agree") form_session.
Proof.
  assert (H1 : guessLocator sample_collab (LObject "name" "agree")
               = Normal (Some (mkBy "name" (LString "agree"))))
    by reflexivity.
  assert (H2 : client_root Browser form_session = Some Document)
    by reflexivity.
  split; [exact H1 | split; [exact H2 |]].
  destruct (strict_locator_single_query sample_collab sample_driver Browser
              _ form_session _ _ H1 H2) as (pg & res & Hd & Hfields & Hcheck).
  rewrite Hcheck, Hfields. simpl in Hd. injection Hd as _ <-.
  split; reflexivity.
Defined.

(** [{name: 'agree'}] would guess to [By.name('agree')]; [findClickable]
    guesses from ['agree'] and sends [false]. *)
Lemma findClickable_ignores_key_witness :
  Locator.isFuzzy (Locator.new (LString "agree")) = true
  /\ browser_findElement form_session = Fn Document
  /\ guessLocator sample_collab (LObject "name" "agree")
     = Normal (Some (mkBy "name" (LString "agree")))
  /\ trace (fst (findClickable sample_collab sample_driver Browser
                   (LObject "name" "agree") form_session))
     = [ EvImplicitlyWait 5000;
         EvFindElement Document QFalse (Throw (TypeError "Invalid locator")) ]
  /\ snd (findClickable sample_collab sample_driver Browser
            (LObject "name" "agree") form_session)
     = Rejected (TypeError "Invalid locator").
Proof.
  assert (H1 : Locator.isFuzzy (Locator.new (LString "agree")) = true)
    by reflexivity.
  assert (H2 : browser_findElement form_session = Fn Document)
    by reflexivity.
  split; [exact H1 | split; [exact H2 | split; [reflexivity |]]].
  destruct (findClickable_ignores_locator_key sample_collab sample_driver
              "name" "agree" form_session Document H1 H2)
    as (_ & pg & res & Hd & Htr & Hres).
  simpl in Hd. injection Hd as _ <-.
  split; [exact Htr | exact Hres].
Defined.

Lemma fillField_clears_then_types_witness :
  findFields sample_collab sample_driver Browser (LString "Password")
    form_session
  = (fst (findFields sample_collab sample_driver Browser (LString "Password")
            form_session), Resolved [7])
  /\ exists pg1 res1,
      d_clear sample_driver 7 form_page = (pg1, res1)
      /\ awaited res1 = Normal tt
      /\ snd (fillField sample_collab sample_driver (LString "Password")
                "secret" form_session) = Resolved tt.
Proof.
  assert (H : findFields sample_collab sample_driver Browser
                (LString "Password") form_session
              = (fst (findFields sample_collab sample_driver Browser
                        (LString "Password") form_session), Resolved [7]))
    by reflexivity.
  split; [exact H |].
  destruct (fillField_clears_then_types sample_collab sample_driver
              (LString "Password") "secret" form_session _ 7 [] H)
    as (pg1 & res1 & Hclear & Hok & _).
  exists pg1, res1. split; [exact Hclear |].
  assert (Hres : awaited res1 = Normal tt).
  { simpl in Hclear. injection Hclear as _ <-. reflexivity. }
  split; [exact Hres |].
  destruct (Hok Hres) as (pg2 & res2 & Hkeys & _ & Hsnd).
  rewrite Hsnd. simpl in Hkeys. injection Hkeys as _ <-. reflexivity.
Defined.

Lemma appendField_clearField_witness :
  findFields sample_collab sample_driver Browser (LString "Password")
    form_session
  = (fst (findFields sample_collab sample_driver Browser (LString "Password")
            form_session), Resolved [7])
  /\ exists pg res,
      appendField sample_collab sample_driver (LString "Password") "x"
        form_session
      = (record pg (EvSendKeys 7 "x" res)
           (fst (findFields sample_collab sample_driver Browser
                   (LString "Password") form_session)),
         promise_of (awaited res)).
Proof.
  assert (H : findFields sample_collab sample_driver Browser
                (LString "Password") form_session
              = (fst (findFields sample_collab sample_driver Browser
                        (LString "Password") form_session), Resolved [7]))
    by reflexivity.
  split; [exact H |].
  destruct (appendField_clearField_use_first sample_collab sample_driver
              (LString "Password") "x" form_session _ 7 [] H)
    as ((pg & res & _ & Happend) & _).
  exists pg, res. exact Happend.
Defined.

(** With both checkboxes of the login form unchecked. *)
Lemma dontSeeCheckboxIsChecked_witness :
  snd (findCheckable sample_collab sample_driver Browser (LString "agree")
         unchecked_session) = Resolved [3; 4]
  /\ selected_states sample_driver [3; 4] unchecked_page [false; false]
       unchecked_page
  /\ trace (fst (dontSeeCheckboxIsChecked sample_collab sample_driver
                   (LString "agree") unchecked_session))
     = trace (fst (findCheckable sample_collab sample_driver Browser
                     (LString "agree") unchecked_session))
         ++ [ EvIsSelected 3 (Normal (Resolved false));
              EvIsSelected 4 (Normal (Resolved false)) ]
  /\ snd (dontSeeCheckboxIsChecked sample_collab sample_driver
            (LString "agree") unchecked_session) = Resolved tt.
Proof.
  set (s1 := fst (findCheckable sample_collab sample_driver Browser
                    (LString "agree") unchecked_session)).
  assert (H1 : findCheckable sample_collab sample_driver Browser
                 (LString "agree") unchecked_session = (s1, Resolved [3; 4]))
    by reflexivity.
  assert (H2 : [3; 4] <> ([] : list Element)) by discriminate.
  assert (H3 : selected_states sample_driver [3; 4] unchecked_page
                 [false; false] unchecked_page).
  { simpl. exists unchecked_page. split; [reflexivity |].
    exists unchecked_page. split; reflexivity. }
  split; [reflexivity | split; [exact H3 |]].
  destruct (dontSeeCheckboxIsChecked_none sample_collab sample_driver
              (LString "agree") unchecked_session s1 [3; 4] [false; false]
              unchecked_page H1 H2 H3) as (Htr & _ & Hiff).
  split; [exact Htr |].
  apply Hiff. intros [| [| i]] el; simpl; intros H;
    first [reflexivity | discriminate H].
Defined.

(** With checkbox 4 checked the negative assertion fails. *)
Lemma dontSeeCheckboxIsChecked_one_selected :
  snd (dontSeeCheckboxIsChecked sample_collab sample_driver (LString "agree")
         form_session)
  = Rejected (AssertionFailedError
                "expected checkable agree not to be checked").
Proof. reflexivity. Qed.

Lemma checkbox_assertions_need_a_match_witness :
  snd (findCheckable sample_collab sample_driver Browser (LString "nothing")
         empty_session) = Resolved []
  /\ snd (dontSeeCheckboxIsChecked sample_collab sample_driver
            (LString "nothing") empty_session)
     = Rejected (Error "Option nothing was not found by text|CSS|XPath").
Proof.
  assert (H : findCheckable sample_collab sample_driver Browser
                (LString "nothing") empty_session
              = (fst (findCheckable sample_collab sample_driver Browser
                        (LString "nothing") empty_session), Resolved []))
    by reflexivity.
  split; [reflexivity |].
  destruct (checkbox_assertions_need_a_match sample_collab sample_driver
              (LString "nothing") empty_session _ H) as (_ & Hdont).
  rewrite Hdont. reflexivity.
Defined.

Lemma checkOption_clicks_unless_selected_witness :
  snd (findCheckable sample_collab sample_driver Browser (LString "agree")
         form_session) = Resolved [3; 4]
  /\ d_isSelected sample_driver 3 form_page
     = (form_page, Normal (Resolved false))
  /\ exists pg2 res,
      d_click sample_driver 3 form_page = (pg2, res)
      /\ snd (checkOption sample_collab sample_driver (LString "agree") None
                form_session) = promise_of (awaited res).
Proof.
  set (s1 := fst (findCheckable sample_collab sample_driver Browser
                    (LString "agree") form_session)).
  assert (H1 : findCheckable sample_collab sample_driver Browser
                 (LString "agree") form_session = (s1, Resolved [3; 4]))
    by reflexivity.
  assert (H2 : d_isSelected sample_driver 3 (page s1)
               = (form_page, Normal (Resolved false)))
    by reflexivity.
  split; [reflexivity | split; [reflexivity |]].
  destruct (checkOption_clicks_unless_selected sample_collab sample_driver
              (LString "agree") form_session s1 3 [4] form_page false H1 H2)
    as (pg2 & res & Hclick & Hrun).
  exists pg2, res. split; [exact Hclick |]. rewrite Hrun. reflexivity.
Defined.

Lemma checkOption_needs_a_match_witness :
  snd (findCheckable sample_collab sample_driver Browser (LString "nothing")
         empty_session) = Resolved []
  /\ snd (checkOption sample_collab sample_driver (LString "nothing") None
            empty_session)
     = Rejected
         (Error "Checkbox or radio nothing was not found by text|CSS|XPath").
Proof.
  assert (H : findCheckable sample_collab sample_driver Browser
                (LString "nothing") empty_session
              = (fst (findCheckable sample_collab sample_driver Browser
                        (LString "nothing") empty_session), Resolved []))
    by reflexivity.
  split; [reflexivity |].
  rewrite (checkOption_needs_a_match sample_collab sample_driver
             (LString "nothing") empty_session _ H).
  reflexivity.
Defined.

Lemma selectOption_prefers_visible_text_witness :
  snd (findFields sample_collab sample_driver Browser
         (LObject "name" "country") select_session) = Resolved [20]
  /\ exists tr,
      trace (fst (selectOption sample_collab sample_driver (fun x => x)
                    (LObject "name" "country") (OneOption "Norway")
                    select_session))
      = trace (fst (findFields sample_collab sample_driver Browser
                      (LObject "name" "country") select_session))
          ++ EvFindElements (Within 20)
               (QBy (by_xpath (byVisibleText (fun x => x) "Norway")))
               (Normal (Resolved [21]))
          :: tr
      /\ Forall2 click_of (take (length tr) [21]) tr.
Proof.
  set (s1 := fst (findFields sample_collab sample_driver Browser
                    (LObject "name" "country") select_session)).
  assert (H1 : findFields sample_collab sample_driver Browser
                 (LObject "name" "country") select_session
               = (s1, Resolved [20])) by reflexivity.
  assert (H2 : d_findElements sample_driver (implicitWait s1) (Within 20)
                 (QBy (by_xpath (byVisibleText (fun x => x) "Norway")))
                 (page s1)
               = (select_page, Normal (Resolved [21]))) by reflexivity.
  split; [reflexivity |].
  destruct (selectOption_prefers_visible_text sample_collab sample_driver
              (fun x => x) (LObject "name" "country") "Norway"
              select_session s1 20 [] select_page 21 [] H1 H2)
    as (tr & Htr & Hall & _).
  exists tr. split; [exact Htr | exact Hall].
Defined.

Lemma selectOption_without_match_witness :
  snd (findFields sample_collab sample_driver Browser
         (LObject "name" "country") select_session) = Resolved [20]
  /\ snd (selectOption sample_collab sample_driver (fun x => x)
            (LObject "name" "country") (OneOption "Atlantis")
            select_session) = Resolved [].
Proof.
  set (s1 := fst (findFields sample_collab sample_driver Browser
                    (LObject "name" "country") select_session)).
  assert (H1 : findFields sample_collab sample_driver Browser
                 (LObject "name" "country") select_session
               = (s1, Resolved [20])) by reflexivity.
  assert (H2 : d_findElements sample_driver (implicitWait s1) (Within 20)
                 (QBy (by_xpath (byVisibleText (fun x => x) "Atlantis")))
                 (page s1)
               = (select_page, Normal (Resolved []))) by reflexivity.
  assert (H3 : d_findElements sample_driver (implicitWait s1) (Within 20)
                 (QBy (by_xpath (byValue (fun x => x) "Atlantis")))
                 select_page
               = (select_page, Normal (Resolved []))) by reflexivity.
  split; [reflexivity |].
  rewrite (selectOption_without_match_succeeds sample_collab sample_driver
             (fun x => x) (LObject "name" "country") "Atlantis"
             select_session s1 20 [] select_page select_page H1 H2 H3).
  reflexivity.
Defined.

Lemma selectOption_needs_a_field_witness :
  snd (findFields sample_collab sample_driver Browser
         (LObject "name" "city") select_session) = Resolved []
  /\ snd (selectOption sample_collab sample_driver (fun x => x)
            (LObject "name" "city") (OptionList ["Oslo"; "Bergen"])
            select_session)
     = Rejected
         (Error "Selectable field city was not found by text|CSS|XPath").
Proof.
  assert (H : findFields sample_collab sample_driver Browser
                (LObject "name" "city") select_session
              = (fst (findFields sample_collab sample_driver Browser
                        (LObject "name" "city") select_session), Resolved []))
    by reflexivity.
  split; [reflexivity |].
  rewrite (selectOption_needs_a_field sample_collab sample_driver
             (fun x => x) (LObject "name" "city")
             (OptionList ["Oslo"; "Bergen"]) select_session _ H).
  reflexivity.
Defined.

Lemma failed_notices_lost_session_witness :
  options_disableScreenshots form_session = false
  /\ snd (failed_fileName sample_collab failed_test form_session)
     = Normal "login works.failed.png"
  /\ isRunning form_session = true
  /\ isRunning (fst (_failed sample_collab gone_driver failed_test
                       form_session)) = false.
Proof.
  assert (H1 : options_disableScreenshots form_session = false)
    by reflexivity.
  assert (H2 : snd (failed_fileName sample_collab failed_test form_session)
               = Normal "login works.failed.png") by reflexivity.
  assert (H3 : d_screenshot gone_driver "login works.failed.png"
                 (page form_session)
               = (form_page,
                  Rejected (DriverError "WebDriverError" "RuntimeError"
                              "session was terminated due to TIMEOUT")))
    by reflexivity.
  split; [exact H1 | split; [exact H2 | split; [reflexivity |]]].
  destruct (failed_notices_lost_session sample_collab gone_driver failed_test
              form_session _ _ _ H1 H2 H3) as (_ & Hrun).
  rewrite Hrun. reflexivity.
Defined.

Lemma failed_without_screenshots_witness :
  options_disableScreenshots quiet_session = true
  /\ snd (_failed sample_collab gone_driver failed_test quiet_session)
     = Normal (Resolved tt)
  /\ trace (fst (_failed sample_collab gone_driver failed_test
                    quiet_session)) = [].
Proof.
  assert (H : options_disableScreenshots quiet_session = true)
    by reflexivity.
  split; [exact H |].
  destruct (failed_without_screenshots sample_collab gone_driver failed_test
              quiet_session H) as (Hres & Htr & _).
  split; [exact Hres | exact Htr].
Defined.

Lemma unique_names_differ_by_uuid_witness :
  options_uniqueScreenshotNames unique_session = true
  /\ title test_a = title test_b
  /\ snd (failed_fileName sample_collab test_a unique_session)
     <> snd (failed_fileName sample_collab test_b unique_session).
Proof.
  split; [reflexivity | split; [reflexivity |]].
  apply (unique_names_differ_by_uuid sample_collab test_a test_b
           "a1b2" "c3d4" unique_session);
    first [reflexivity | discriminate].
Defined.

(** Without unique names the two tests share one file name. *)
Lemma plain_names_collide :
  snd (failed_fileName sample_collab test_a form_session)
  = snd (failed_fileName sample_collab test_b form_session).
Proof. reflexivity. Qed.

Lemma reachable_finders_in_sync_witness :
  reachable sample_collab sample_driver login_scope
  /\ browser_findElement login_scope = Fn (Within 9)
  /\ browser_findElement login_scope = browser_findElements login_scope.
Proof.
  assert (H : reachable sample_collab sample_driver login_scope).
  { eapply reach_step; [apply reach_started |].
    exact (step_withinBegin sample_collab sample_driver (LString "#login")
             form_session). }
  split; [exact H | split; [reflexivity |]].
  exact (proj1 (reachable_finders_in_sync sample_collab sample_driver
                  login_scope H)).
Defined.

Lemma locate_smartWait_bracket_witness :
  guessed sample_collab (LString "#nonexistent")
  = Normal (QBy (mkBy "css" (LString "#nonexistent")))
  /\ options_smartWait form_session <> 0%Z
  /\ trace (fst (_locate sample_collab sample_driver (LString "#nonexistent")
                    true form_session))
     = [ EvImplicitlyWait 5000;
         EvFindElements Document (QBy (mkBy "css" (LString "#nonexistent")))
           (Normal (Resolved []));
         EvImplicitlyWait 0 ]
  /\ implicitWait (fst (_locate sample_collab sample_driver
                          (LString "#nonexistent") true form_session)) = 0%Z.
Proof.
  assert (H1 : guessed sample_collab (LString "#nonexistent")
               = Normal (QBy (mkBy "css" (LString "#nonexistent"))))
    by reflexivity.
  assert (H2 : browser_findElements form_session = Fn Document)
    by reflexivity.
  assert (H3 : options_smartWait form_session <> 0%Z) by discriminate.
  assert (H4 : d_findElements sample_driver (options_smartWait form_session)
                 Document (QBy (mkBy "css" (LString "#nonexistent")))
                 (page form_session)
               = (form_page, Normal (Resolved []))) by reflexivity.
  split; [exact H1 | split; [exact H3 |]].
  destruct (locate_smartWait_bracket sample_collab sample_driver
              (LString "#nonexistent") form_session _ _ _ _ H1 H2 H3 H4)
    as (Htr & Hwait & _).
  split; [exact Htr | exact Hwait].
Defined.

Lemma locate_default_sets_no_timeout_witness :
  options_smartWait form_session = 5000%Z
  /\ trace (fst (_locate sample_collab sample_driver (LObject "name" "agree")
                    false form_session))
     = [EvFindElements Document (QBy (mkBy "name" (LString "agree")))
          (Normal (Resolved [3; 4]))].
Proof.
  assert (H1 : guessed sample_collab (LObject "name" "agree")
               = Normal (QBy (mkBy "name" (LString "agree"))))
    by reflexivity.
  assert (H2 : browser_findElements form_session = Fn Document)
    by reflexivity.
  assert (H3 : d_findElements sample_driver (implicitWait form_session)
                 Document (QBy (mkBy "name" (LString "agree")))
                 (page form_session)
               = (form_page, Normal (Resolved [3; 4]))) by reflexivity.
  split; [reflexivity |].
  rewrite (locate_default_sets_no_timeout sample_collab sample_driver
             (LObject "name" "agree") form_session _ _ _ _ H1 H2 H3).
  reflexivity.
Defined.

Lemma after_restart_is_idempotent_witness :
  options_restart restarting = true
  /\ queued (_after restarting) = [Quit]
  /\ _after (_after restarting) = _after restarting.
Proof.
  assert (H : options_restart restarting = true) by reflexivity.
  split; [exact H | split; [reflexivity |]].
  exact (proj2 (after_restart_is_idempotent restarting H)).
Defined.

Lemma findClickable_fuzzy_order_witness :
  Locator.isFuzzy (Locator.new (LString "Save")) = true
  /\ client_root Browser form_session = Some Document
  /\ trace (fst (findClickable sample_collab sample_driver Browser
                    (LString "Save") form_session))
     <> trace form_session.
Proof.
  assert (H1 : Locator.isFuzzy (Locator.new (LString "Save")) = true)
    by reflexivity.
  assert (H2 : client_root Browser form_session = Some Document)
    by reflexivity.
  split; [exact H1 | split; [exact H2 |]].
  destruct (findClickable_fuzzy_order sample_collab sample_driver Browser
              (LString "Save") form_session Document H1 H2)
    as [(res & _ & ->) | [(res & _ & ->) | [-> | (r' & res & ->)]]];
    discriminate.
Defined.
